(** * Citronus API documentation site: the playground script and the client
      core that the documentation describes

    The only executable artifact of the repository is [src/playground.js], a
    browser form that posts a JSON-RPC request to the public endpoint.  It is
    embedded in [Module Playground] over a model of the JavaScript values it
    touches ([Module JS]).

    The signature of private requests is computed by the JavaScript example
    of the API reference ([Module Signing]).

    The order validator documented in the API reference and designed in the
    specification has no implementation in the repository; [Module Decimal]
    and [Module OrderValidator] model it from the specification. *)

From Stdlib Require Import ZArith NArith List Ascii String Lia Bool.
From stdpp Require Import base option list strings gmap.
Import ListNotations.

Local Open Scope N_scope.

(* ===================================================================== *)
(** * JavaScript values used by the playground *)
(* ===================================================================== *)

Module JS.

(** A JavaScript string is a sequence of UTF-16 code units. *)
Definition jsstring := list N.

(** An ASCII literal as a JavaScript string. *)
Definition js (s : string) : jsstring :=
  map N_of_ascii (list_ascii_of_string s).

(** ECMAScript WhiteSpace and LineTerminator code points, the characters
    that [String.prototype.trim] strips. *)
Definition is_white_space (c : N) : bool :=
  (c =? 0x09) || (c =? 0x0A) || (c =? 0x0B) || (c =? 0x0C) || (c =? 0x0D)
  || (c =? 0x20) || (c =? 0xA0) || (c =? 0x1680)
  || ((0x2000 <=? c) && (c <=? 0x200A))
  || (c =? 0x2028) || (c =? 0x2029) || (c =? 0x202F) || (c =? 0x205F)
  || (c =? 0x3000) || (c =? 0xFEFF).

Fixpoint trimStart (s : jsstring) : jsstring :=
  match s with
  | c :: s' => if is_white_space c then trimStart s' else s
  | [] => []
  end.

Definition trimEnd (s : jsstring) : jsstring := rev (trimStart (rev s)).

(** [s.trim()] *)
Definition trim (s : jsstring) : jsstring := trimEnd (trimStart s).

(** A Number value.  The playground never computes with numbers, it only
    serialises them, so a finite number is represented by the text that
    Number::toString gives it; NaN and the infinities are [NonFinite]. *)
Inductive JsNumber :=
| Finite (text : jsstring)
| NonFinite.

(** The values [JSON.parse] can return.  An object keeps its properties in
    enumeration order. *)
#[warnings="-register-all"] Inductive JsVal :=
| JNull
| JBool (b : bool)
| JNum (n : JsNumber)
| JStr (s : jsstring)
| JArr (items : list JsVal)
| JObj (props : list (jsstring * JsVal)).

Definition hex_digit (d : N) : N :=
  if d <? 10 then 0x30 + d else 0x61 + (d - 10).

(** [\uXXXX] with lower-case hexadecimal digits. *)
Definition unicode_escape (c : N) : jsstring :=
  js "\u" ++ [hex_digit (c / 4096 mod 16); hex_digit (c / 256 mod 16);
              hex_digit (c / 16 mod 16); hex_digit (c mod 16)].

Definition is_high_surrogate (c : N) : bool := (0xD800 <=? c) && (c <=? 0xDBFF).
Definition is_low_surrogate (c : N) : bool := (0xDC00 <=? c) && (c <=? 0xDFFF).

(** The body of QuoteJSONString: the escapes of one code unit that is not
    part of a surrogate pair. *)
Definition quote_unit (c : N) : jsstring :=
  if c =? 0x08 then js "\b"
  else if c =? 0x09 then js "\t"
  else if c =? 0x0A then js "\n"
  else if c =? 0x0C then js "\f"
  else if c =? 0x0D then js "\r"
  else if c =? 0x22 then [0x5C; 0x22]
  else if c =? 0x5C then js "\\"
  else if (c <? 0x20) || is_high_surrogate c || is_low_surrogate c
       then unicode_escape c
  else [c].

Fixpoint quote_units (s : jsstring) : jsstring :=
  match s with
  | [] => []
  | h :: s' =>
      match s' with
      | l :: s'' =>
          if is_high_surrogate h && is_low_surrogate l
          then h :: l :: quote_units s''
          else quote_unit h ++ quote_units s'
      | [] => quote_unit h
      end
  end.

(** QuoteJSONString *)
Definition quote (s : jsstring) : jsstring :=
  [0x22] ++ quote_units s ++ [0x22].

Fixpoint join (sep : jsstring) (parts : list jsstring) : jsstring :=
  match parts with
  | [] => []
  | [p] => p
  | p :: rest => p ++ sep ++ join sep rest
  end.

(** The bracketed part of SerializeJSONObject and SerializeJSONArray:
    [stepback] is the indentation outside, [indent] the one inside. *)
Definition wrap (open close gap stepback indent : jsstring)
    (parts : list jsstring) : jsstring :=
  match parts with
  | [] => open ++ close
  | _ =>
      match gap with
      | [] => open ++ join (js ",") parts ++ close
      | _ => open ++ [0x0A] ++ indent
             ++ join (js "," ++ [0x0A] ++ indent) parts
             ++ [0x0A] ++ stepback ++ close
      end
  end.

(** SerializeJSONProperty on a parsed value, with the gap of the call and
    the current indentation. *)
Fixpoint serialize (gap indent : jsstring) (v : JsVal) : jsstring :=
  match v with
  | JNull => js "null"
  | JBool true => js "true"
  | JBool false => js "false"
  | JNum (Finite text) => text
  | JNum NonFinite => js "null"
  | JStr s => quote s
  | JArr items =>
      wrap (js "[") (js "]") gap indent (indent ++ gap)
           (map (serialize gap (indent ++ gap)) items)
  | JObj props =>
      wrap (js "{") (js "}") gap indent (indent ++ gap)
           (map (fun p => let '(k, x) := p in
                   quote k ++ js ":" ++ (match gap with [] => [] | _ => js " " end)
                   ++ serialize gap (indent ++ gap) x) props)
  end.

(** [JSON.stringify(v)] *)
Definition JSON_stringify (v : JsVal) : jsstring := serialize [] [] v.

(** [JSON.stringify(v, null, 2)] *)
Definition JSON_stringify_pretty (v : JsVal) : jsstring :=
  serialize (js "  ") [] v.

(** Own property lookup on an object value. *)
Fixpoint get_prop (k : jsstring) (props : list (jsstring * JsVal)) : option JsVal :=
  match props with
  | [] => None
  | (k', x) :: rest => if decide (k' = k) then Some x else get_prop k rest
  end.

End JS.

(* ===================================================================== *)
(** * src/playground.js *)
(* ===================================================================== *)

Module Playground.
Import JS.

(** The part of an element that the script reads or writes. *)
Record Element := {
  value : jsstring;
  textContent : jsstring
}.

(** The document, as [document.getElementById] sees it: the elements that
    carry an id; an absent id gives [null]. *)
Abbreviation Document := (gmap string Element).

Definition getElementById (document : Document) (id : string) : option Element :=
  document !! id.

(** [el.textContent = text] on the element with the given id. *)
Definition set_textContent (id : string) (text : jsstring)
    (document : Document) : Document :=
  alter (fun el => {| value := value el; textContent := text |}) id document.

(** One call of [fetch(url, {method, headers, body})]. *)
Record Request := {
  url : jsstring;
  http_method : jsstring;
  headers : list (jsstring * jsstring);
  body : jsstring
}.

(** What the script calls but does not define.  [JSON_parse] returns the
    parsed value or, when it throws, the thrown error converted to a string
    (the script only concatenates it to a message).  [fetch_text] stands for
    [await fetch(url, init)] followed by [await resp.text()]: the response
    text, or the rejection converted to a string. *)
Record Browser := {
  JSON_parse : jsstring -> JsVal + jsstring;
  fetch_text : Request -> jsstring + jsstring;
  (** the empty text is not JSON: [JSON.parse] throws a SyntaxError on it *)
  JSON_parse_empty : forall v, JSON_parse [] <> inl v
}.

Definition endpoint : jsstring := js "https://api.citronus.com/public/v1/jsonrpc".

(** Step 3 of [callApi]: the object literal, then [bodyObj.id = reqid] when
    [reqid] is not the empty string. *)
Definition build_body (method : jsstring) (paramsObj : JsVal) (reqid : jsstring)
    : JsVal :=
  JObj ([(js "jsonrpc", JStr (js "2.0"));
         (js "method", JStr method);
         (js "params", paramsObj)]
        ++ match reqid with
           | [] => []
           | _ => [(js "id", JStr reqid)]
           end).

(** Step 2 of [callApi]: [paramsText ? JSON.parse(paramsText) : {}]. *)
Definition parse_params (env : Browser) (paramsText : jsstring)
    : JsVal + jsstring :=
  match paramsText with
  | [] => inl (JObj [])
  | _ => JSON_parse env paramsText
  end.

(** Step 5 of [callApi]: what ends up in the response box. *)
Definition response_text (env : Browser) (req : Request) : jsstring :=
  match fetch_text env req with
  | inl text =>
      match JSON_parse env text with
      | inl json => JSON_stringify_pretty json
      | inr _ => text
      end
  | inr err => js "Request failed:" ++ [0x0A] ++ err
  end.

(** [callApi()]: the document after the call and the requests it issued, in
    order. *)
Definition callApi (env : Browser) (document : Document)
    : Document * list Request :=
  match getElementById document "method",
        getElementById document "params",
        getElementById document "reqid",
        getElementById document "requestPreview",
        getElementById document "responseBox" with
  | Some methodEl, Some paramsEl, Some reqidEl, Some _, Some _ =>
      let method := value methodEl in
      let paramsText := value paramsEl in
      let reqid := trim (value reqidEl) in
      match parse_params env paramsText with
      | inr e =>
          (set_textContent "responseBox"
             (js "Params JSON parse error:" ++ [0x0A] ++ e) document, [])
      | inl paramsObj =>
          let bodyObj := build_body method paramsObj reqid in
          let bodyStr := JSON_stringify bodyObj in
          let document := set_textContent "requestPreview" bodyStr document in
          let req := {| url := endpoint;
                        http_method := js "POST";
                        headers := [(js "Content-Type", js "application/json")];
                        body := bodyStr |} in
          (set_textContent "responseBox" (response_text env req) document, [req])
      end
  | _, _, _, _, _ => (document, [])
  end.

(** The playground page: the document has the five elements. *)
Definition page_loaded (document : Document) : Prop :=
  is_Some (document !! "method") /\ is_Some (document !! "params")
  /\ is_Some (document !! "reqid") /\ is_Some (document !! "requestPreview")
  /\ is_Some (document !! "responseBox").

(** The user input: what the three form controls hold. *)
Definition input_value (document : Document) (id : string) : jsstring :=
  match document !! id with
  | Some el => value el
  | None => []
  end.

Definition shown (document : Document) (id : string) : option jsstring :=
  textContent <$> document !! id.

Definition ascii_upper (c : N) : N :=
  if (0x61 <=? c) && (c <=? 0x7A) then c - 0x20 else c.

(** A header whose name starts with [X-CITRO-]; header names do not
    distinguish case. *)
Definition is_citro_header (h : jsstring * jsstring) : bool :=
  bool_decide (map ascii_upper (take 8 (fst h)) = js "X-CITRO-").

(** ** A browser and a page for closed examples *)

(** A stand-in for [JSON.parse] that knows the text [{}] and the compact
    serialisations of two sample values and throws on all other texts, and
    a server that answers every request with the second sample. *)
Definition sample_params : JsVal := JObj [(js "category", JStr (js "spot"))].
Definition sample_response : JsVal := JObj [(js "result", JArr [])].

Definition example_parse (text : jsstring) : JsVal + jsstring :=
  if decide (text = js "{}") then inl (JObj [])
  else if decide (text = JSON_stringify sample_params) then inl sample_params
  else if decide (text = JSON_stringify sample_response) then inl sample_response
  else inr (js "SyntaxError: Unexpected token").

Definition example_browser : Browser :=
  {| JSON_parse := example_parse;
     fetch_text := fun _ => inl (JSON_stringify sample_response);
     JSON_parse_empty := fun v (H : example_parse [] = inl v) =>
       match H in _ = r return match r with inl _ => False | inr _ => True end
       with eq_refl => I end |}.

Definition example_page (method params reqid : jsstring) : Document :=
  list_to_map
    [("method"%string, {| value := method; textContent := [] |});
     ("params"%string, {| value := params; textContent := [] |});
     ("reqid"%string, {| value := reqid; textContent := [] |});
     ("requestPreview"%string, {| value := []; textContent := js "old" |});
     ("responseBox"%string, {| value := []; textContent := [] |})].

End Playground.

(* ===================================================================== *)
(** * Request signing (docs/index.md, sections 2.4 to 2.6) *)
(* ===================================================================== *)

Module Signing.

Definition bytes := list Byte.byte.

Section Sign.

(** The MAC of [node:crypto] as the JavaScript example calls it,
    [createHmac("sha256", key).update(msg, "utf8").digest()]; the
    repository does not define it. *)
Variable HMAC_SHA256 : bytes -> bytes -> bytes.

(** [digest("hex")]: two lower-case hexadecimal digits for each byte. *)
Definition hex_byte (b : Byte.byte) : JS.jsstring :=
  [JS.hex_digit (Byte.to_N b / 16); JS.hex_digit (Byte.to_N b mod 16)].

Definition hex (bs : bytes) : JS.jsstring := flat_map hex_byte bs.

(** [const toSign = ts + API_KEY + RECV_WINDOW + raw], on the UTF-8
    bytes of the four strings. *)
Definition to_sign (ts api_key recv_window raw : bytes) : bytes :=
  ((ts ++ api_key) ++ recv_window) ++ raw.

(** The value of the X-CITRO-SIGNATURE header. *)
Definition sign (secret ts api_key recv_window payload : bytes) : JS.jsstring :=
  hex (HMAC_SHA256 secret (to_sign ts api_key recv_window payload)).

End Sign.

End Signing.

(* ===================================================================== *)
(** * Decimal values (specification, section 2 item 1 and section 9) *)
(* ===================================================================== *)

Module Decimal.
Local Open Scope Z_scope.

(** Modelled from the spec: the Decimal Value type, which the repository
    does not implement.  An exact base-10 number [mant / 10^scale]; a
    decimal string of the API such as [100.00] is the mantissa 10000 at
    scale 2. *)
Record t := { mant : Z; scale : nat }.

Definition pow10 (n : nat) : Z := 10 ^ Z.of_nat n.

Definition zero : t := {| mant := 0; scale := 0 |}.

(** Comparison of the values, by cross multiplication. *)
Definition leb (a b : t) : bool :=
  mant a * pow10 (scale b) <=? mant b * pow10 (scale a).

Definition is_positive (a : t) : bool := 0 <? mant a.

Definition mul (a b : t) : t :=
  {| mant := mant a * mant b; scale := scale a + scale b |}.

(** Modelled from the spec: "has at most [p] fractional digits", read on
    the value: [a * 10^p] is an integer (trailing zeros do not count). *)
Definition fits_precision (p : nat) (a : t) : bool :=
  (mant a * pow10 p) mod pow10 (scale a) =? 0.

(** Modelled from the spec: "is a multiple of [tick]": [a / tick] is an
    integer; nothing is a multiple of a zero tick. *)
Definition is_multiple_of (a tick : t) : bool :=
  if mant tick =? 0 then false
  else (mant a * pow10 (scale tick)) mod (mant tick * pow10 (scale a)) =? 0.

(** Modelled from the spec: [floor(a / b, p)], the quotient rounded down to
    [p] fractional digits. *)
Definition floor_div (a b : t) (p : nat) : t :=
  {| mant := (mant a * pow10 (scale b) * pow10 p) / (mant b * pow10 (scale a));
     scale := p |}.


(** *** Reading and writing decimal strings *)

Definition digit_of (c : ascii) : option Z :=
  let n := Z.of_N (N_of_ascii c) in
  if (48 <=? n) && (n <=? 57) then Some (n - 48) else None.

Fixpoint parse_frac (m : Z) (sc : nat) (s : list ascii) : option t :=
  match s with
  | [] => Some {| mant := m; scale := sc |}
  | c :: s' =>
      match digit_of c with
      | Some d => parse_frac (10 * m + d) (S sc) s'
      | None => None
      end
  end.

Fixpoint parse_int (m : Z) (s : list ascii) : option t :=
  match s with
  | [] => Some {| mant := m; scale := 0 |}
  | c :: s' =>
      if Ascii.eqb c "."
      then match s' with
           | [] => None
           | _ => parse_frac m 0 s'
           end
      else match digit_of c with
           | Some d => parse_int (10 * m + d) s'
           | None => None
           end
  end.

Definition parse_unsigned (s : list ascii) : option t :=
  match s with
  | c :: _ =>
      match digit_of c with
      | Some _ => parse_int 0 s
      | None => None
      end
  | [] => None
  end.

(** A decimal string: an optional minus sign, digits, and optionally a
    point followed by digits. *)
Definition of_string (s : string) : option t :=
  match list_ascii_of_string s with
  | c :: rest =>
      if Ascii.eqb c "-"
      then (fun d => {| mant := - mant d; scale := scale d |}) <$> parse_unsigned rest
      else parse_unsigned (c :: rest)
  | [] => None
  end.

(** A decimal literal of the documentation; zero when it is malformed. *)
Definition dec (s : string) : t := default zero (of_string s).





End Decimal.

(* ===================================================================== *)
(** * Order Validator (specification, section 4.3) *)
(* ===================================================================== *)

Module OrderValidator.

Inductive Side := buy | sell.

Inductive OrderType := market | limit | stop_limit.

(** Modelled from the spec: the OrderRequest of the data model, which the
    repository does not implement.  The optional fields are the ones a
    request may leave out. *)
Record OrderRequest := {
  symbol : string;
  side : Side;
  type : OrderType;
  amount : option Decimal.t;
  total : option Decimal.t;
  price : option Decimal.t;
  stop_price : option Decimal.t
}.

(** Modelled from the spec: the MarketMetadata of the data model (the
    repository only documents the [markets] response it is read from). *)
Record MarketMetadata := {
  trade_base_precision : nat;
  trade_quote_precision : nat;
  quote_tick_size : Decimal.t;
  min_order_qty : Decimal.t;
  max_order_qty : Decimal.t;
  min_order_amt : Decimal.t;
  max_order_amt : Decimal.t;
  commission : list (OrderType * Side * Decimal.t)
}.

(** Modelled from the spec: the Market Metadata Cache as the validator
    reads it, keyed by symbol; [get] is the lookup and an absent symbol is
    NotFound. *)
Abbreviation Cache := (gmap string MarketMetadata).

(** Modelled from the spec: the error kinds the validator produces
    (section 4.3), named as the server reports them (section 7). *)
Inductive ErrorKind := invalid_pair | invalid_params | invalid_order_value.

Inductive result (A : Type) :=
| Ok (a : A)
| Err (e : ErrorKind).
Arguments Ok {A} a.
Arguments Err {A} e.

(** Sequencing: the first error ends the validation. *)
#[global] Instance result_bind : MBind result := fun A B k r =>
  match r with
  | Ok a => k a
  | Err e => Err e
  end.

Definition require (b : bool) (e : ErrorKind) : result unit :=
  if b then Ok tt else Err e.

(** limit and stop_limit orders carry a price. *)
Definition priced (ty : OrderType) : bool :=
  match ty with
  | limit | stop_limit => true
  | market => false
  end.

Definition positive_field (f : option Decimal.t) : bool :=
  match f with
  | Some d => Decimal.is_positive d
  | None => false
  end.

(** Modelled from the spec: check 1, "Symbol known in cache, else
    invalid_pair". *)
Definition check_symbol (cache : Cache) (req : OrderRequest)
    : result MarketMetadata :=
  match cache !! symbol req with
  | Some md => Ok md
  | None => Err invalid_pair
  end.

(** Modelled from the spec: check 2, "Exactly one of amount/total present,
    else invalid_params". *)
Definition exactly_one (req : OrderRequest) : bool :=
  match amount req, total req with
  | Some _, None | None, Some _ => true
  | Some _, Some _ | None, None => false
  end.

Definition check_exclusive (req : OrderRequest) : result unit :=
  require (exactly_one req) invalid_params.

(** Modelled from the spec: check 3, "price required and price > 0 for
    limit/stop_limit, else invalid_params". *)
Definition check_price (req : OrderRequest) : result unit :=
  if priced (type req)
  then require (positive_field (price req)) invalid_params
  else Ok tt.

(** Modelled from the spec: check 4, "stop_price required and > 0 for
    stop_limit, else invalid_params". *)
Definition check_stop_price (req : OrderRequest) : result unit :=
  match type req with
  | stop_limit => require (positive_field (stop_price req)) invalid_params
  | limit | market => Ok tt
  end.

(** Modelled from the spec: the condition of check 5, "price is a multiple
    of quote_tick_size and has at most trade_quote_precision fractional
    digits". *)
Definition price_on_grid (md : MarketMetadata) (p : Decimal.t) : bool :=
  Decimal.is_multiple_of p (quote_tick_size md)
  && Decimal.fits_precision (trade_quote_precision md) p.

(** Modelled from the spec: check 5, on the orders that carry a price
    (market orders are not price-validated). *)
Definition check_price_grid (md : MarketMetadata) (req : OrderRequest)
    : result unit :=
  if priced (type req)
  then match price req with
       | Some p => require (price_on_grid md p) invalid_order_value
       | None => Err invalid_order_value
       end
  else Ok tt.

(** Modelled from the spec: the price an amount is derived with, the
    order's own price when it carries one and, for a market order, the
    reference price "where a reference price is available". *)
Definition pricing (ref_price : option Decimal.t) (req : OrderRequest)
    : option Decimal.t :=
  let p := if priced (type req) then price req else ref_price in
  if positive_field p then p else None.

(** Modelled from the spec: the derivation rule
    [amount = floor(total / price, trade_base_precision)]. *)
Definition derive_amount (md : MarketMetadata) (total_ price_ : Decimal.t)
    : Decimal.t :=
  Decimal.floor_div total_ price_ (trade_base_precision md).

(** Modelled from the spec: check 6, "amount (or the amount implied by
    total/price, rounded down to trade_base_precision) has at most
    trade_base_precision fractional digits, else invalid_order_value".
    The result is the BASE quantity of the order; it is unknown for a
    market order by total without a reference price. *)
Definition check_amount (md : MarketMetadata) (ref_price : option Decimal.t)
    (req : OrderRequest) : result (option Decimal.t) :=
  match amount req with
  | Some a =>
      require (Decimal.fits_precision (trade_base_precision md) a)
              invalid_order_value ;;
      Ok (Some a)
  | None =>
      match total req, pricing ref_price req with
      | Some t, Some p =>
          let a := derive_amount md t p in
          require (Decimal.fits_precision (trade_base_precision md) a)
                  invalid_order_value ;;
          Ok (Some a)
      | _, _ => Ok None
      end
  end.

(** Modelled from the spec: the QUOTE notional, "price times amount" for
    an order with a price; for a market order the total when it is given,
    else the estimate from the reference price when there is one. *)
Definition notional (ref_price : option Decimal.t) (req : OrderRequest)
    (qty : option Decimal.t) : option Decimal.t :=
  if priced (type req)
  then match pricing ref_price req, qty with
       | Some p, Some q => Some (Decimal.mul p q)
       | _, _ => None
       end
  else match total req with
       | Some t => Some t
       | None =>
           match pricing ref_price req, qty with
           | Some p, Some q => Some (Decimal.mul p q)
           | _, _ => None
           end
       end.

Definition within (lo hi : Decimal.t) (x : option Decimal.t) : bool :=
  match x with
  | Some d => Decimal.leb lo d && Decimal.leb d hi
  | None => true
  end.

(** Modelled from the spec: check 7, "BASE quantity within
    [min_order_qty, max_order_qty] and QUOTE notional within
    [min_order_amt, max_order_amt], else invalid_order_value"; a quantity
    that cannot be estimated is left to the server. *)
Definition check_ranges (md : MarketMetadata) (qty quote : option Decimal.t)
    : result unit :=
  require (within (min_order_qty md) (max_order_qty md) qty
           && within (min_order_amt md) (max_order_amt md) quote)
          invalid_order_value.

(** Modelled from the spec: what the validator hands to the transport,
    the request with the metadata it was checked against and the resulting
    BASE quantity and QUOTE notional (unknown where the check was left to
    the server). *)
Record ValidOrder := {
  request : OrderRequest;
  metadata : MarketMetadata;
  base_qty : option Decimal.t;
  quote_notional : option Decimal.t
}.

(** Modelled from the spec: the Order Validator, checks 1 to 7 in order,
    the first failing check giving the error kind. *)
Definition validate (cache : Cache) (ref_price : option Decimal.t)
    (req : OrderRequest) : result ValidOrder :=
  md ← check_symbol cache req;
  check_exclusive req ;;
  check_price req ;;
  check_stop_price req ;;
  check_price_grid md req ;;
  qty ← check_amount md ref_price req;
  check_ranges md qty (notional ref_price req qty) ;;
  Ok {| request := req; metadata := md; base_qty := qty;
        quote_notional := notional ref_price req qty |}.

(** ** The BTC/USDT market of the API reference (docs/index.md, markets) *)

Definition btc_usdt : MarketMetadata :=
  {| trade_base_precision := 6;
     trade_quote_precision := 6;
     quote_tick_size := Decimal.dec "0.01";
     min_order_qty := Decimal.dec "0.000048";
     max_order_qty := Decimal.dec "71.73956243";
     min_order_amt := Decimal.dec "1";
     max_order_amt := Decimal.dec "4000000";
     commission := [(limit, sell, Decimal.dec "0.0001");
                    (limit, buy, Decimal.dec "0.0001");
                    (market, sell, Decimal.dec "0");
                    (market, buy, Decimal.dec "0");
                    (stop_limit, sell, Decimal.dec "0.0001");
                    (stop_limit, buy, Decimal.dec "0.0001")] |}.

Definition example_cache : Cache := {[ "BTC/USDT"%string := btc_usdt ]}.

(** A limit buy of BTC/USDT with the given optional amount and total. *)
Definition limit_buy (sym : string) (amount_ total_ : option string)
    (price_ : string) : OrderRequest :=
  {| symbol := sym; side := buy; type := limit;
     amount := amount_ ≫= Decimal.of_string;
     total := total_ ≫= Decimal.of_string;
     price := Decimal.of_string price_;
     stop_price := None |}.


(** Both amount and total, on BTC/USDT. *)
Definition both_known_symbol : OrderRequest :=
  limit_buy "BTC/USDT" (Some "1"%string) (Some "500"%string) "100.00".

(** Both amount and total, for a symbol the cache does not hold. *)
Definition both_unknown_symbol : OrderRequest :=
  limit_buy "ETH/USDT" (Some "1"%string) (Some "500"%string) "100.00".

(** Neither amount nor total, at a price off the BTC/USDT tick. *)
Definition off_tick_no_amount : OrderRequest :=
  limit_buy "BTC/USDT" None None "100.005".

(** The two prices of the specification's tick example, for 500 USDT. *)
Definition off_tick : OrderRequest :=
  limit_buy "BTC/USDT" None (Some "500"%string) "100.005".

Definition on_tick : OrderRequest :=
  limit_buy "BTC/USDT" None (Some "500"%string) "100.00".

(** An unknown symbol together with every other violation: both amount and
    total, a stop_limit order without stop price, a negative price. *)
Definition all_wrong : OrderRequest :=
  {| symbol := "DOGE/EUR"; side := sell; type := stop_limit;
     amount := Decimal.of_string "0.0000001";
     total := Decimal.of_string "5";
     price := Decimal.of_string "-1.005";
     stop_price := None |}.

End OrderValidator.

(* ===================================================================== *)
(** * JSON text produced by the playground *)
(* ===================================================================== *)

Module JSONText.
Import JS.

Definition is_hex_digit (c : N) : bool :=
  ((0x30 <=? c) && (c <=? 0x39)) || ((0x61 <=? c) && (c <=? 0x66))
  || ((0x41 <=? c) && (c <=? 0x46)).

(** The character after a backslash in a two-character escape of the JSON
    grammar (RFC 8259, section 7): quotation mark, backslash, slash, b, f,
    n, r, t. *)
Definition is_simple_escape (c : N) : bool :=
  (c =? 0x22) || (c =? 0x5C) || (c =? 0x2F) || (c =? 0x62) || (c =? 0x66)
  || (c =? 0x6E) || (c =? 0x72) || (c =? 0x74).

(** The characters between the quotation marks of a JSON string: unescaped
    characters other than the quotation mark, the backslash and the control
    characters, two-character escapes, and [\u] with four hexadecimal
    digits. *)
Fixpoint string_chars (s : jsstring) : bool :=
  match s with
  | [] => true
  | c :: rest =>
      if c =? 0x5C then
        match rest with
        | e :: rest' =>
            if is_simple_escape e then string_chars rest'
            else if e =? 0x75 then
              match rest' with
              | h1 :: h2 :: h3 :: h4 :: rest'' =>
                  is_hex_digit h1 && is_hex_digit h2 && is_hex_digit h3
                  && is_hex_digit h4 && string_chars rest''
              | _ => false
              end
            else false
        | [] => false
        end
      else if (c <? 0x20) || (c =? 0x22) then false
      else string_chars rest
  end.

(** A JSON string: quotation mark, characters, quotation mark. *)
Definition is_json_string (s : jsstring) : bool :=
  match s with
  | q :: rest =>
      match rev rest with
      | q' :: body => (q =? 0x22) && (q' =? 0x22) && string_chars (rev body)
      | [] => false
      end
  | [] => false
  end.

(** Well-formed UTF-16: every high surrogate is followed by a low one and
    every low surrogate follows a high one. *)
Fixpoint well_formed_utf16 (s : jsstring) : bool :=
  match s with
  | [] => true
  | c :: rest =>
      if is_high_surrogate c then
        match rest with
        | l :: rest' => is_low_surrogate l && well_formed_utf16 rest'
        | [] => false
        end
      else negb (is_low_surrogate c) && well_formed_utf16 rest
  end.

End JSONText.

(* ===================================================================== *)
(** * src/playground.js: the click handler and its registration *)
(* ===================================================================== *)

Module PlaygroundEvents.
Import JS Playground.

(** The two functions of the script that it registers as listeners. *)
Inductive Callback := cb_callApi | cb_attachPlaygroundHandlers.

#[global] Instance Callback_eq_dec : EqDecision Callback.
Proof. solve_decision. Defined.

(** An entry of an event listener list; the script passes no options, so
    every listener is a bubbling-phase listener. *)
Record Listener := { event_type : string; callback : Callback }.

#[global] Instance Listener_eq_dec : EqDecision Listener.
Proof. solve_decision. Defined.

(** [target.addEventListener(type, callback)] on the listener list of the
    target: the listener is appended unless the list already has one with
    this type and callback. *)
Definition addEventListener (type : string) (cb : Callback)
    (ls : list Listener) : list Listener :=
  let l := {| event_type := type; callback := cb |} in
  if decide (l ∈ ls) then ls else ls ++ [l].

(** The page as the script sees it: the elements, the listener lists the
    script has filled (by element id), and the listener list of
    [document]. *)
Record Page := {
  page_document : Document;
  element_listeners : gmap string (list Listener);
  document_listeners : list Listener
}.

Definition listeners_of (page : Page) (id : string) : list Listener :=
  default [] (element_listeners page !! id).

(** A freshly rendered page: no listener registered yet. *)
Definition fresh_page (document : Document) : Page :=
  {| page_document := document; element_listeners := ∅;
     document_listeners := [] |}.

(** [attachPlaygroundHandlers()] *)
Definition attachPlaygroundHandlers (page : Page) : Page :=
  match getElementById (page_document page) "sendBtn" with
  | None => page
  | Some _ =>
      {| page_document := page_document page;
         element_listeners :=
           <["sendBtn"%string :=
               addEventListener "click" cb_callApi (listeners_of page "sendBtn")]>
             (element_listeners page);
         document_listeners := document_listeners page |}
  end.

(** The top level of the script: the two [document.addEventListener]
    calls. *)
Definition load_script (page : Page) : Page :=
  {| page_document := page_document page;
     element_listeners := element_listeners page;
     document_listeners :=
       addEventListener "navigationend" cb_attachPlaygroundHandlers
         (addEventListener "DOMContentLoaded" cb_attachPlaygroundHandlers
            (document_listeners page)) |}.

(** One listener callback, on the page and the requests sent so far. *)
Definition run (env : Browser) (cb : Callback) (st : Page * list Request)
    : Page * list Request :=
  match cb with
  | cb_callApi =>
      let r := callApi env (page_document st.1) in
      ({| page_document := r.1;
          element_listeners := element_listeners st.1;
          document_listeners := document_listeners st.1 |},
       st.2 ++ r.2)
  | cb_attachPlaygroundHandlers => (attachPlaygroundHandlers st.1, st.2)
  end.

(** An event of the given type on a target: the listeners of that type in
    the target's list run in the order of their registration. *)
Definition dispatch (env : Browser) (type : string) (ls : list Listener)
    (st : Page * list Request) : Page * list Request :=
  fold_left (fun st l =>
               if decide (event_type l = type) then run env (callback l) st
               else st)
            ls st.

(** A click on the element with the given id. *)
Definition click (env : Browser) (id : string) (page : Page)
    : Page * list Request :=
  dispatch env "click" (listeners_of page id) (page, []).

(** An event fired on [document], such as DOMContentLoaded or
    navigationend. *)
Definition fire (env : Browser) (type : string) (page : Page)
    : Page * list Request :=
  dispatch env type (document_listeners page) (page, []).

(** Several document events in a row; the requests they cause are
    collected. *)
Fixpoint fire_all (env : Browser) (types : list string)
    (st : Page * list Request) : Page * list Request :=
  match types with
  | [] => st
  | type :: rest =>
      let r := fire env type st.1 in
      fire_all env rest (r.1, st.2 ++ r.2)
  end.

(** The form control with the given id holding the text [v]. *)
Definition with_value (id : string) (v : jsstring) (document : Document)
    : Document :=
  alter (fun el => {| value := v; textContent := textContent el |}) id document.

(** The playground page with its send button. *)
Definition example_page_with_button (method params reqid : jsstring)
    : Document :=
  <["sendBtn"%string := {| value := []; textContent := js "Send request" |}]>
    (example_page method params reqid).

(** The request [callApi] builds from the form and the parsed params. *)
Definition request_of (document : Document) (paramsObj : JsVal) : Request :=
  {| url := endpoint; http_method := js "POST";
     headers := [(js "Content-Type", js "application/json")];
     body := JSON_stringify
               (build_body (input_value document "method") paramsObj
                  (trim (input_value document "reqid"))) |}.

(** The two listeners the script registers on [document]. *)
Definition on_load : Listener :=
  {| event_type := "DOMContentLoaded"; callback := cb_attachPlaygroundHandlers |}.

Definition on_navigation : Listener :=
  {| event_type := "navigationend"; callback := cb_attachPlaygroundHandlers |}.

(** A browser without network: every fetch is rejected. *)
Definition offline_browser : Browser :=
  {| JSON_parse := example_parse;
     fetch_text := fun _ => inr (js "TypeError: Failed to fetch");
     JSON_parse_empty := JSON_parse_empty example_browser |}.

End PlaygroundEvents.

(* ===================================================================== *)
(** * Reading a JSON string *)
(* ===================================================================== *)

Module JSONRead.
Import JS.

(** The value of a hexadecimal digit. *)
Definition hex_value (c : N) : option N :=
  if (0x30 <=? c) && (c <=? 0x39) then Some (c - 0x30)
  else if (0x61 <=? c) && (c <=? 0x66) then Some (c - 0x61 + 10)
  else if (0x41 <=? c) && (c <=? 0x46) then Some (c - 0x41 + 10)
  else None.

(** The code unit a two-character escape stands for. *)
Definition unescape (e : N) : option N :=
  if e =? 0x22 then Some 0x22
  else if e =? 0x5C then Some 0x5C
  else if e =? 0x2F then Some 0x2F
  else if e =? 0x62 then Some 0x08
  else if e =? 0x66 then Some 0x0C
  else if e =? 0x6E then Some 0x0A
  else if e =? 0x72 then Some 0x0D
  else if e =? 0x74 then Some 0x09
  else None.

(** Reading the characters of a JSON string back, as [JSON.parse] does for
    a string: escapes are replaced by what they stand for, every other code
    unit stands for itself. *)
Fixpoint unquote_units (s : jsstring) : option jsstring :=
  match s with
  | [] => Some []
  | c :: rest =>
      if c =? 0x5C then
        match rest with
        | e :: rest' =>
            if e =? 0x75 then
              match rest' with
              | h1 :: h2 :: h3 :: h4 :: rest'' =>
                  match hex_value h1, hex_value h2, hex_value h3, hex_value h4 with
                  | Some a, Some b, Some c', Some d =>
                      cons (4096 * a + 256 * b + 16 * c' + d)
                        <$> unquote_units rest''
                  | _, _, _, _ => None
                  end
              | _ => None
              end
            else
              match unescape e with
              | Some u => cons u <$> unquote_units rest'
              | None => None
              end
        | [] => None
        end
      else cons c <$> unquote_units rest
  end.

(** Reading a JSON string: the quotation marks are dropped. *)
Definition unquote (s : jsstring) : option jsstring :=
  match s with
  | q :: rest =>
      match rev rest with
      | q' :: body =>
          if (q =? 0x22) && (q' =? 0x22) then unquote_units (rev body) else None
      | [] => None
      end
  | [] => None
  end.

End JSONRead.

(* ===================================================================== *)
(** * Properties of the playground script *)
(* ===================================================================== *)

Module PlaygroundFacts.
Import JS Playground.

Lemma shown_set_same (id : string) (text : jsstring) (document : Document) :
  is_Some (document !! id) ->
  shown (set_textContent id text document) id = Some text.
Proof.
  intros [el Hel]. unfold shown, set_textContent.
  rewrite lookup_alter_eq, Hel. reflexivity.
Qed.

Lemma lookup_set_other (id id' : string) (text : jsstring) (document : Document) :
  id <> id' ->
  set_textContent id text document !! id' = document !! id'.
Proof. intros Hne. unfold set_textContent. by rewrite lookup_alter_ne. Qed.

(** On the playground page [callApi] gets past its guard. *)
Lemma callApi_loaded (env : Browser) (document : Document) :
  page_loaded document ->
  callApi env document =
    match parse_params env (input_value document "params") with
    | inr e =>
        (set_textContent "responseBox"
           (js "Params JSON parse error:" ++ [0x0A] ++ e) document, [])
    | inl paramsObj =>
        let bodyStr :=
          JSON_stringify (build_body (input_value document "method") paramsObj
                            (trim (input_value document "reqid"))) in
        let req := {| url := endpoint; http_method := js "POST";
                      headers := [(js "Content-Type", js "application/json")];
                      body := bodyStr |} in
        (set_textContent "responseBox" (response_text env req)
           (set_textContent "requestPreview" bodyStr document), [req])
    end.
Proof.
  intros ([m Hm] & [p Hp] & [r Hr] & [q Hq] & [b Hb]).
  unfold callApi, getElementById, input_value.
  rewrite Hm, Hp, Hr, Hq, Hb. reflexivity.
Qed.

(** On any other page [callApi] returns at once. *)
Lemma callApi_not_loaded (env : Browser) (document : Document) :
  ~ page_loaded document -> callApi env document = (document, []).
Proof.
  intros Hno. unfold callApi, getElementById.
  destruct (document !! "method") eqn:Hm; [|reflexivity].
  destruct (document !! "params") eqn:Hp; [|reflexivity].
  destruct (document !! "reqid") eqn:Hr; [|reflexivity].
  destruct (document !! "requestPreview") eqn:Hq; [|reflexivity].
  destruct (document !! "responseBox") eqn:Hb; [|reflexivity].
  exfalso. apply Hno. unfold page_loaded.
  rewrite Hm, Hp, Hr, Hq, Hb. repeat split; eexists; reflexivity.
Qed.

(** [trimStart] leaves nothing exactly when the string is all white space. *)
Lemma trimStart_nil (s : jsstring) :
  trimStart s = [] <-> forallb is_white_space s = true.
Proof.
  induction s as [|c s IH]; simpl; [tauto|].
  destruct (is_white_space c); simpl; [exact IH|].
  split; discriminate.
Qed.

Lemma forallb_rev (f : N -> bool) (s : jsstring) :
  forallb f (rev s) = forallb f s.
Proof.
  induction s as [|c s IH]; simpl; [reflexivity|].
  rewrite forallb_app, IH. simpl. rewrite andb_true_r. apply andb_comm.
Qed.

Lemma trimStart_all_white (s : jsstring) :
  forallb is_white_space (trimStart s) = true <-> forallb is_white_space s = true.
Proof.
  induction s as [|c s IH]; simpl; [tauto|].
  destruct (is_white_space c) eqn:Hc; simpl; [exact IH|].
  rewrite Hc. simpl. tauto.
Qed.

(** [trim] leaves nothing exactly when the string is all white space. *)
Lemma trim_nil (s : jsstring) :
  trim s = [] <-> forallb is_white_space s = true.
Proof.
  unfold trim, trimEnd.
  rewrite <- trimStart_all_white, <- (forallb_rev _ (trimStart s)), <- trimStart_nil.
  split.
  - intros H. apply (f_equal (@rev N)) in H. rewrite rev_involutive in H. exact H.
  - intros H. rewrite H. reflexivity.
Qed.

(** The text of the request body, piece by piece. *)
Lemma stringify_body (method reqid : jsstring) (paramsObj : JsVal) :
  JSON_stringify (build_body method paramsObj reqid) =
    js "{" ++ quote (js "jsonrpc") ++ js ":" ++ quote (js "2.0")
    ++ js "," ++ quote (js "method") ++ js ":" ++ quote method
    ++ js "," ++ quote (js "params") ++ js ":" ++ JSON_stringify paramsObj
    ++ match reqid with
       | [] => []
       | _ => js "," ++ quote (js "id") ++ js ":" ++ quote reqid
       end
    ++ js "}".
Proof.
  unfold JSON_stringify, build_body.
  destruct reqid as [|c r]; cbn [app map serialize wrap join];
    repeat rewrite <- app_assoc; reflexivity.
Qed.

(** C5. On the playground page, when the params text parses as JSON,
    [callApi] issues exactly one request: a POST to
    https://api.citronus.com/public/v1/jsonrpc whose body is the JSON
    serialisation of the object with jsonrpc "2.0", the selected method, the
    parsed params and, when the trimmed request id is not empty, that id;
    and the request preview then shows exactly the body that is sent. *)
Theorem callApi_posts_jsonrpc_body (env : Browser) (document : Document)
    (paramsObj : JsVal) :
  page_loaded document ->
  JSON_parse env (input_value document "params") = inl paramsObj ->
  let method := input_value document "method" in
  let reqid := trim (input_value document "reqid") in
  let bodyObj :=
    JObj ([(js "jsonrpc", JStr (js "2.0")); (js "method", JStr method);
           (js "params", paramsObj)]
          ++ (if decide (reqid = []) then [] else [(js "id", JStr reqid)])) in
  exists document',
    callApi env document =
      (document',
       [{| url := js "https://api.citronus.com/public/v1/jsonrpc";
           http_method := js "POST";
           headers := [(js "Content-Type", js "application/json")];
           body := JSON_stringify bodyObj |}])
    /\ shown document' "requestPreview" = Some (JSON_stringify bodyObj).
Proof.
  intros Hpage Hparse method reqid bodyObj.
  rewrite (callApi_loaded env document Hpage).
  assert (Hp : parse_params env (input_value document "params") = inl paramsObj).
  { unfold parse_params. destruct (input_value document "params") eqn:Ht.
    - exfalso. exact (JSON_parse_empty env paramsObj Hparse).
    - exact Hparse. }
  rewrite Hp. cbv zeta.
  assert (Hb : build_body (input_value document "method") paramsObj
                 (trim (input_value document "reqid")) = bodyObj).
  { unfold build_body, bodyObj, reqid.
    destruct (trim (input_value document "reqid")); reflexivity. }
  rewrite Hb. eexists. split; [reflexivity|].
  unfold shown. rewrite lookup_set_other by discriminate.
  apply shown_set_same. apply Hpage.
Qed.

(** C8. On the playground page, when the params text is not empty and
    [JSON.parse] throws on it, [callApi] issues no request, writes the
    parse-error message to the response box and leaves the request preview
    (and every other element) as it was. *)
Theorem callApi_parse_error_sends_nothing (env : Browser) (document : Document)
    (e : jsstring) :
  page_loaded document ->
  input_value document "params" <> [] ->
  JSON_parse env (input_value document "params") = inr e ->
  exists document',
    callApi env document = (document', [])
    /\ shown document' "responseBox"
       = Some (js "Params JSON parse error:" ++ [0x0A] ++ e)
    /\ document' !! "requestPreview" = document !! "requestPreview"
    /\ (forall id : string, id <> "responseBox"%string ->
          document' !! id = document !! id).
Proof.
  intros Hpage Hne Hparse.
  rewrite (callApi_loaded env document Hpage).
  assert (Hp : parse_params env (input_value document "params") = inr e).
  { unfold parse_params. destruct (input_value document "params"); [done|].
    exact Hparse. }
  rewrite Hp. eexists. split; [reflexivity|].
  split; [apply shown_set_same, Hpage|].
  split; [by apply lookup_set_other|].
  intros id Hid. by apply lookup_set_other.
Qed.

(** C9. On the playground page, whenever [callApi] gets past the params
    (the textarea is empty, which gives the empty object, or its text
    parses), the body it sends is the serialisation of an object that has
    the id field if and only if the request-id input is not empty after
    trimming; a white-space-only id gives no id field, and an empty params
    textarea gives the field params = {}. *)
Theorem callApi_id_iff_nonblank (env : Browser) (document : Document)
    (paramsObj : JsVal) :
  page_loaded document ->
  (input_value document "params" = [] /\ paramsObj = JObj [])
  \/ JSON_parse env (input_value document "params") = inl paramsObj ->
  let method := input_value document "method" in
  let reqid := input_value document "reqid" in
  let props :=
    [(js "jsonrpc", JStr (js "2.0")); (js "method", JStr method);
     (js "params", paramsObj)]
    ++ (if decide (trim reqid = []) then [] else [(js "id", JStr (trim reqid))]) in
  exists document' req,
    callApi env document = (document', [req])
    /\ body req = JSON_stringify (JObj props)
    /\ (is_Some (get_prop (js "id") props) <-> trim reqid <> [])
    /\ (forallb is_white_space reqid = true -> get_prop (js "id") props = None)
    /\ get_prop (js "params") props = Some paramsObj
    /\ (input_value document "params" = [] ->
          get_prop (js "params") props = Some (JObj [])
          /\ body req =
               js "{" ++ quote (js "jsonrpc") ++ js ":" ++ quote (js "2.0")
               ++ js "," ++ quote (js "method") ++ js ":" ++ quote method
               ++ js "," ++ quote (js "params") ++ js ":" ++ js "{}"
               ++ (if decide (trim reqid = []) then []
                   else js "," ++ quote (js "id") ++ js ":" ++ quote (trim reqid))
               ++ js "}").
Proof.
  intros Hpage Hin method reqid props.
  rewrite (callApi_loaded env document Hpage).
  assert (Hp : parse_params env (input_value document "params") = inl paramsObj).
  { unfold parse_params. destruct Hin as [[-> ->]|Hparse]; [reflexivity|].
    destruct (input_value document "params") eqn:Ht; [|exact Hparse].
    exfalso. exact (JSON_parse_empty env paramsObj Hparse). }
  assert (Hempty : input_value document "params" = [] -> paramsObj = JObj []).
  { intros Ht. rewrite Ht in Hp. simpl in Hp. congruence. }
  rewrite Hp. cbv zeta.
  assert (Hb : build_body (input_value document "method") paramsObj
                 (trim (input_value document "reqid")) = JObj props).
  { unfold build_body, props, reqid.
    destruct (trim (input_value document "reqid")); reflexivity. }
  eexists _, _. split; [reflexivity|]. cbn [body].
  split; [by rewrite Hb|].
  assert (Hid : get_prop (js "id") props
                = if decide (trim reqid = []) then None else Some (JStr (trim reqid))).
  { unfold props. destruct (decide (trim reqid = [])); reflexivity. }
  split.
  { rewrite Hid. destruct (decide (trim reqid = [])) as [Heq|Hneq].
    - split; [intros [? ?]; discriminate | intros H; contradiction].
    - split; [done | intros _; eexists; reflexivity]. }
  split.
  { intros Hws. apply trim_nil in Hws. rewrite Hid.
    destruct (decide (trim reqid = [])); [reflexivity | contradiction]. }
  split.
  { unfold props. reflexivity. }
  intros Ht. specialize (Hempty Ht). split.
  { unfold props. by rewrite Hempty. }
  rewrite stringify_body. rewrite Hempty. fold method. fold reqid.
  destruct (trim reqid), (decide _); try done.
Qed.

(** C10. Every request [callApi] issues, whatever the input, carries
    exactly one header, Content-Type: application/json, so none of its
    headers is an X-CITRO-* authentication header. *)
Theorem callApi_only_content_type (env : Browser) (document : Document) :
  Forall (fun req =>
            headers req = [(js "Content-Type", js "application/json")]
            /\ length (headers req) = 1%nat
            /\ forallb (fun h => negb (is_citro_header h)) (headers req) = true)
         (callApi env document).2.
Proof.
  unfold callApi.
  repeat match goal with
         | |- context [match getElementById ?d ?i with _ => _ end] =>
             destruct (getElementById d i)
         end; try (apply Forall_nil; exact I).
  destruct (parse_params env _); simpl; [|apply Forall_nil; exact I].
  apply Forall_cons; split; [|apply Forall_nil; exact I].
  simpl. repeat split.
Qed.


(** The example page has the five elements. *)
Lemma example_page_loaded (method params reqid : jsstring) :
  page_loaded (example_page method params reqid).
Proof. repeat split; vm_compute; eexists; reflexivity. Defined.

Lemma callApi_posts_jsonrpc_body_witness :
  page_loaded (example_page (js "markets") (JSON_stringify sample_params) (js " 1 "))
  /\ JSON_parse example_browser (JSON_stringify sample_params) = inl sample_params
  /\ exists document',
       callApi example_browser
         (example_page (js "markets") (JSON_stringify sample_params) (js " 1 "))
       = (document',
          [{| url := js "https://api.citronus.com/public/v1/jsonrpc";
              http_method := js "POST";
              headers := [(js "Content-Type", js "application/json")];
              body := JSON_stringify
                        (JObj [(js "jsonrpc", JStr (js "2.0"));
                               (js "method", JStr (js "markets"));
                               (js "params", sample_params);
                               (js "id", JStr (js "1"))]) |}])
       /\ shown document' "requestPreview"
          = Some (JSON_stringify
                    (JObj [(js "jsonrpc", JStr (js "2.0"));
                           (js "method", JStr (js "markets"));
                           (js "params", sample_params);
                           (js "id", JStr (js "1"))])).
Proof.
  split; [apply example_page_loaded|]. split; [reflexivity|].
  apply (callApi_posts_jsonrpc_body example_browser
           (example_page (js "markets") (JSON_stringify sample_params) (js " 1 "))
           sample_params);
    [apply example_page_loaded | reflexivity].
Defined.

Lemma callApi_parse_error_sends_nothing_witness :
  page_loaded (example_page (js "markets") (js "{ ") (js "1"))
  /\ js "{ " <> []
  /\ JSON_parse example_browser (js "{ ") = inr (js "SyntaxError: Unexpected token")
  /\ exists document',
       callApi example_browser (example_page (js "markets") (js "{ ") (js "1"))
       = (document', [])
       /\ shown document' "responseBox"
          = Some (js "Params JSON parse error:" ++ [0x0A]
                  ++ js "SyntaxError: Unexpected token")
       /\ shown document' "requestPreview" = Some (js "old").
Proof.
  split; [apply example_page_loaded|]. split; [discriminate|].
  split; [reflexivity|].
  destruct (callApi_parse_error_sends_nothing example_browser
              (example_page (js "markets") (js "{ ") (js "1"))
              (js "SyntaxError: Unexpected token"))
    as (document' & Hcall & Hbox & Hprev & _);
    [apply example_page_loaded | discriminate | reflexivity |].
  exists document'. split; [exact Hcall|]. split; [exact Hbox|].
  unfold shown. rewrite Hprev. reflexivity.
Defined.

Lemma callApi_id_iff_nonblank_witness :
  page_loaded (example_page (js "tickers") [] [0x20; 0x09; 0xA0])
  /\ exists document' req,
       callApi example_browser (example_page (js "tickers") [] [0x20; 0x09; 0xA0])
       = (document', [req])
       /\ body req = JSON_stringify
                       (JObj [(js "jsonrpc", JStr (js "2.0"));
                              (js "method", JStr (js "tickers"));
                              (js "params", JObj [])]).
Proof.
  split; [apply example_page_loaded|].
  destruct (callApi_id_iff_nonblank example_browser
              (example_page (js "tickers") [] [0x20; 0x09; 0xA0]) (JObj []))
    as (document' & req & Hcall & Hbody & _);
    [apply example_page_loaded | left; split; reflexivity |].
  exists document', req. split; [exact Hcall | exact Hbody].
Defined.

End PlaygroundFacts.

(* ===================================================================== *)
(** * Properties of request signing *)
(* ===================================================================== *)

Module SigningFacts.
Import Signing.

Lemma hex_digit_inj (a b : N) :
  a < 16 -> b < 16 -> JS.hex_digit a = JS.hex_digit b -> a = b.
Proof.
  unfold JS.hex_digit. intros Ha Hb.
  destruct (N.ltb_spec a 10), (N.ltb_spec b 10); lia.
Qed.

Lemma hex_byte_inj (a b : Byte.byte) : hex_byte a = hex_byte b -> a = b.
Proof.
  unfold hex_byte. intros H. injection H as Hhi Hlo.
  pose proof (Byte.to_N_bounded a) as Ha. pose proof (Byte.to_N_bounded b) as Hb.
  apply hex_digit_inj in Hhi;
    [|apply N.Div0.div_lt_upper_bound; lia | apply N.Div0.div_lt_upper_bound; lia].
  apply hex_digit_inj in Hlo; [|apply N.mod_lt; lia | apply N.mod_lt; lia].
  assert (Heq : Byte.to_N a = Byte.to_N b).
  { rewrite (N.div_mod (Byte.to_N a) 16), (N.div_mod (Byte.to_N b) 16) by lia.
    rewrite Hhi, Hlo. reflexivity. }
  pose proof (Byte.of_to_N a) as Hoa. rewrite Heq, Byte.of_to_N in Hoa.
  congruence.
Qed.

(** The hexadecimal text determines the bytes. *)
Lemma hex_inj (x y : bytes) : hex x = hex y -> x = y.
Proof.
  revert y. induction x as [|a x IH]; intros [|b y] H; try discriminate.
  - reflexivity.
  - unfold hex in H. simpl in H. injection H as Hhi Hlo Hrest.
    f_equal; [|by apply IH].
    apply hex_byte_inj. unfold hex_byte. by rewrite Hhi, Hlo.
Qed.

Section Sign.

Variable HMAC_SHA256 : bytes -> bytes -> bytes.

(** Different payloads are signed as different messages. *)
Lemma to_sign_payload_inj (ts api_key recv_window p p' : bytes) :
  to_sign ts api_key recv_window p = to_sign ts api_key recv_window p' ->
  p = p'.
Proof. unfold to_sign. apply app_inv_head. Qed.

(** Two payloads get the same signature exactly when the MACs of the two
    signed messages coincide. *)
Lemma sign_eq_iff_mac_eq (secret ts api_key recv_window p p' : bytes) :
  sign HMAC_SHA256 secret ts api_key recv_window p
  = sign HMAC_SHA256 secret ts api_key recv_window p'
  <-> HMAC_SHA256 secret (to_sign ts api_key recv_window p)
      = HMAC_SHA256 secret (to_sign ts api_key recv_window p').
Proof.
  unfold sign. split; [apply hex_inj | intros ->; reflexivity].
Qed.

End Sign.

End SigningFacts.

(* ===================================================================== *)
(** * Properties of decimal values *)
(* ===================================================================== *)

Module DecimalFacts.
Import Decimal.
Local Open Scope Z_scope.

Lemma pow10_pos (n : nat) : 0 < pow10 n.
Proof. unfold pow10. apply Z.pow_pos_nonneg; lia. Qed.


(** [is_multiple_of a tick] says that [a = k * tick] for an integer [k]. *)
Lemma is_multiple_of_spec (a tick : t) :
  is_multiple_of a tick = true <->
  mant tick <> 0 /\
  exists k : Z, mant a * pow10 (scale tick) = k * mant tick * pow10 (scale a).
Proof.
  unfold is_multiple_of. pose proof (pow10_pos (scale a)) as Ha.
  destruct (Z.eqb_spec (mant tick) 0) as [H0|H0].
  - split; [discriminate | intros [H _]; contradiction].
  - rewrite Z.eqb_eq, Z.mod_divide by nia. split.
    + intros [k Hk]. split; [exact H0|]. exists k. lia.
    + intros [_ [k Hk]]. exists k. lia.
Qed.

(** [fits_precision p a] says that [a = m / 10^p] for an integer [m]. *)
Lemma fits_precision_spec (p : nat) (a : t) :
  fits_precision p a = true <->
  exists m : Z, mant a * pow10 p = m * pow10 (scale a).
Proof.
  unfold fits_precision. pose proof (pow10_pos (scale a)) as Ha.
  rewrite Z.eqb_eq, Z.mod_divide by lia. reflexivity.
Qed.




End DecimalFacts.

(* ===================================================================== *)
(** * Properties of the Order Validator *)
(* ===================================================================== *)

Module OrderValidatorFacts.
Import OrderValidator.
Import DecimalFacts.

Lemma require_ok (b : bool) (e : ErrorKind) :
  require b e = Ok tt <-> b = true.
Proof. destruct b; simpl; split; congruence. Qed.

Lemma require_err (b : bool) (e e' : ErrorKind) :
  require b e = Err e' <-> b = false /\ e' = e.
Proof.
  destruct b; simpl; split; intros H.
  - discriminate.
  - destruct H; discriminate.
  - injection H as ->. split; reflexivity.
  - destruct H as [_ ->]. reflexivity.
Qed.

(** With a known symbol the validator is the chain of the later checks. *)
Lemma validate_known (cache : Cache) (ref_price : option Decimal.t)
    (req : OrderRequest) (md : MarketMetadata) :
  cache !! symbol req = Some md ->
  validate cache ref_price req =
    (check_exclusive req ;;
     check_price req ;;
     check_stop_price req ;;
     check_price_grid md req ;;
     qty ← check_amount md ref_price req;
     check_ranges md qty (notional ref_price req qty) ;;
     Ok {| request := req; metadata := md; base_qty := qty;
           quote_notional := notional ref_price req qty |}).
Proof. intros H. unfold validate, check_symbol. rewrite H. reflexivity. Qed.

Lemma validate_unknown (cache : Cache) (ref_price : option Decimal.t)
    (req : OrderRequest) :
  cache !! symbol req = None ->
  validate cache ref_price req = Err invalid_pair.
Proof. intros H. unfold validate, check_symbol. rewrite H. reflexivity. Qed.

(** Each check fails with its own kind only. *)
Lemma check_exclusive_kind (req : OrderRequest) (e : ErrorKind) :
  check_exclusive req = Err e -> e = invalid_params.
Proof. unfold check_exclusive. intros H. apply require_err in H. destruct H as [_ ->]. reflexivity. Qed.

Lemma check_price_kind (req : OrderRequest) (e : ErrorKind) :
  check_price req = Err e -> e = invalid_params.
Proof.
  unfold check_price. destruct (priced _); [|discriminate].
  intros H. apply require_err in H. destruct H as [_ ->]. reflexivity.
Qed.

Lemma check_stop_price_kind (req : OrderRequest) (e : ErrorKind) :
  check_stop_price req = Err e -> e = invalid_params.
Proof.
  unfold check_stop_price. destruct (type req); try discriminate.
  intros H. apply require_err in H. destruct H as [_ ->]. reflexivity.
Qed.

Lemma check_price_grid_kind (md : MarketMetadata) (req : OrderRequest)
    (e : ErrorKind) :
  check_price_grid md req = Err e -> e = invalid_order_value.
Proof.
  unfold check_price_grid. destruct (priced _); [|discriminate].
  destruct (price req); [|congruence].
  intros H. apply require_err in H. destruct H as [_ ->]. reflexivity.
Qed.

Lemma check_amount_kind (md : MarketMetadata) (ref_price : option Decimal.t)
    (req : OrderRequest) (e : ErrorKind) :
  check_amount md ref_price req = Err e -> e = invalid_order_value.
Proof.
  unfold check_amount.
  destruct (amount req).
  - destruct (Decimal.fits_precision _ _); simpl; congruence.
  - destruct (total req), (pricing ref_price req); try discriminate.
    destruct (Decimal.fits_precision _ _); simpl; congruence.
Qed.

Lemma check_ranges_kind (md : MarketMetadata) (qty quote : option Decimal.t)
    (e : ErrorKind) :
  check_ranges md qty quote = Err e -> e = invalid_order_value.
Proof. unfold check_ranges. intros H. apply require_err in H. destruct H as [_ ->]. reflexivity. Qed.

Ltac run_chain :=
  repeat (match goal with
          | H : _ = Ok _ |- _ => rewrite H
          | H : _ = Err _ |- _ => rewrite H
          end; simpl).

Lemma unit_result (r : result unit) : r = Ok tt \/ exists e, r = Err e.
Proof. destruct r as [[]|e]; eauto. Qed.

(** C6. The validator runs the checks in the order 1 to 7 and the first
    failing check gives the error kind (invalid_pair for check 1,
    invalid_params for checks 2 to 4, invalid_order_value for checks 5 to
    7).  So a request whose symbol is not in the cache yields invalid_pair
    whatever else is wrong with it, and invalid_pair is produced by no
    other check. *)
Theorem unknown_symbol_is_invalid_pair (cache : Cache)
    (ref_price : option Decimal.t) (req : OrderRequest) :
  (cache !! symbol req = None -> validate cache ref_price req = Err invalid_pair)
  /\ (validate cache ref_price req = Err invalid_pair ->
        cache !! symbol req = None)
  /\ (forall md e, cache !! symbol req = Some md ->
        check_exclusive req = Err e ->
        e = invalid_params /\ validate cache ref_price req = Err e)
  /\ (forall md e, cache !! symbol req = Some md ->
        check_exclusive req = Ok tt ->
        check_price req = Err e ->
        e = invalid_params /\ validate cache ref_price req = Err e)
  /\ (forall md e, cache !! symbol req = Some md ->
        check_exclusive req = Ok tt -> check_price req = Ok tt ->
        check_stop_price req = Err e ->
        e = invalid_params /\ validate cache ref_price req = Err e)
  /\ (forall md e, cache !! symbol req = Some md ->
        check_exclusive req = Ok tt -> check_price req = Ok tt ->
        check_stop_price req = Ok tt ->
        check_price_grid md req = Err e ->
        e = invalid_order_value /\ validate cache ref_price req = Err e)
  /\ (forall md e, cache !! symbol req = Some md ->
        check_exclusive req = Ok tt -> check_price req = Ok tt ->
        check_stop_price req = Ok tt -> check_price_grid md req = Ok tt ->
        check_amount md ref_price req = Err e ->
        e = invalid_order_value /\ validate cache ref_price req = Err e)
  /\ (forall md qty e, cache !! symbol req = Some md ->
        check_exclusive req = Ok tt -> check_price req = Ok tt ->
        check_stop_price req = Ok tt -> check_price_grid md req = Ok tt ->
        check_amount md ref_price req = Ok qty ->
        check_ranges md qty (notional ref_price req qty) = Err e ->
        e = invalid_order_value /\ validate cache ref_price req = Err e)
  /\ (forall md qty, cache !! symbol req = Some md ->
        check_exclusive req = Ok tt -> check_price req = Ok tt ->
        check_stop_price req = Ok tt -> check_price_grid md req = Ok tt ->
        check_amount md ref_price req = Ok qty ->
        check_ranges md qty (notional ref_price req qty) = Ok tt ->
        exists v, validate cache ref_price req = Ok v).
Proof.
  split; [apply validate_unknown|].
  split.
  { destruct (cache !! symbol req) as [md|] eqn:Hs; [|reflexivity].
    rewrite (validate_known _ _ _ _ Hs). intros H. exfalso.
    destruct (unit_result (check_exclusive req)) as [H2|[e H2]]; rewrite H2 in H;
      [|apply check_exclusive_kind in H2; simpl in H; congruence].
    destruct (unit_result (check_price req)) as [H3|[e H3]]; rewrite H3 in H;
      [|apply check_price_kind in H3; simpl in H; congruence].
    destruct (unit_result (check_stop_price req)) as [H4|[e H4]]; rewrite H4 in H;
      [|apply check_stop_price_kind in H4; simpl in H; congruence].
    destruct (unit_result (check_price_grid md req)) as [H5|[e H5]]; rewrite H5 in H;
      [|apply check_price_grid_kind in H5; simpl in H; congruence].
    simpl in H.
    destruct (check_amount md ref_price req) as [qty|e] eqn:H6;
      [|apply check_amount_kind in H6; simpl in H; congruence].
    simpl in H.
    destruct (unit_result (check_ranges md qty (notional ref_price req qty)))
      as [H7|[e H7]]; rewrite H7 in H;
      [|apply check_ranges_kind in H7; simpl in H; congruence].
    discriminate. }
  repeat match goal with |- _ /\ _ => split end; intros;
    try (split;
         [eauto using check_exclusive_kind, check_price_kind,
            check_stop_price_kind, check_price_grid_kind, check_amount_kind,
            check_ranges_kind|]);
    erewrite validate_known by eassumption; run_chain;
    first [reflexivity | eexists; reflexivity].
Qed.


(** What an accepted request went through. *)
Lemma validate_ok_inv (cache : Cache) (ref_price : option Decimal.t)
    (req : OrderRequest) (v : ValidOrder) :
  validate cache ref_price req = Ok v ->
  exists md,
    cache !! symbol req = Some md
    /\ check_exclusive req = Ok tt
    /\ check_price req = Ok tt
    /\ check_stop_price req = Ok tt
    /\ check_price_grid md req = Ok tt
    /\ check_amount md ref_price req = Ok (base_qty v)
    /\ metadata v = md /\ request v = req.
Proof.
  intros H.
  destruct (cache !! symbol req) as [md|] eqn:Hs;
    [|rewrite (validate_unknown _ _ _ Hs) in H; discriminate].
  rewrite (validate_known _ _ _ _ Hs) in H. exists md.
  destruct (check_exclusive req) as [[]|]; [simpl in H|discriminate].
  destruct (check_price req) as [[]|]; [simpl in H|discriminate].
  destruct (check_stop_price req) as [[]|]; [simpl in H|discriminate].
  destruct (check_price_grid md req) as [[]|]; [simpl in H|discriminate].
  destruct (check_amount md ref_price req) as [qty|]; [simpl in H|discriminate].
  destruct (check_ranges md qty _) as [[]|]; [simpl in H|discriminate].
  injection H as <-. simpl. repeat split; reflexivity.
Qed.





(** C3, amended.  The validator accepts a request only if exactly one of
    amount and total is present.  A request with both, and a request with
    neither, is always rejected: with invalid_params when its symbol is in
    the cache, and with invalid_pair (check 1 comes first) when it is not. *)
Theorem both_or_neither_rejected (cache : Cache)
    (ref_price : option Decimal.t) (req : OrderRequest) :
  (forall v, validate cache ref_price req = Ok v ->
     (is_Some (amount req) /\ total req = None)
     \/ (amount req = None /\ is_Some (total req)))
  /\ (is_Some (amount req) -> is_Some (total req) ->
        validate cache ref_price req =
          match cache !! symbol req with
          | Some _ => Err invalid_params
          | None => Err invalid_pair
          end)
  /\ (amount req = None -> total req = None ->
        validate cache ref_price req =
          match cache !! symbol req with
          | Some _ => Err invalid_params
          | None => Err invalid_pair
          end).
Proof.
  split; [|split].
  - intros v Hv. apply validate_ok_inv in Hv as (md & _ & H2 & _).
    unfold check_exclusive in H2. apply require_ok in H2.
    unfold exactly_one in H2.
    destruct (amount req), (total req); try discriminate; eauto.
  - intros [a Ha] [t Ht].
    destruct (cache !! symbol req) as [md|] eqn:Hs;
      [|by apply validate_unknown].
    rewrite (validate_known _ _ _ _ Hs).
    unfold check_exclusive, exactly_one. rewrite Ha, Ht. reflexivity.
  - intros Ha Ht.
    destruct (cache !! symbol req) as [md|] eqn:Hs;
      [|by apply validate_unknown].
    rewrite (validate_known _ _ _ _ Hs).
    unfold check_exclusive, exactly_one. rewrite Ha, Ht. reflexivity.
Qed.

Lemma both_or_neither_rejected_witness :
  (amount off_tick_no_amount = None /\ total off_tick_no_amount = None
   /\ validate example_cache None off_tick_no_amount = Err invalid_params)
  /\ (is_Some (amount both_known_symbol) /\ is_Some (total both_known_symbol)
      /\ validate example_cache None both_known_symbol = Err invalid_params).
Proof.
  split.
  - split; [reflexivity|]. split; [reflexivity|].
    apply (proj2 (proj2 (both_or_neither_rejected example_cache None
                           off_tick_no_amount))); reflexivity.
  - split; [eexists; reflexivity|]. split; [eexists; reflexivity|].
    apply (proj1 (proj2 (both_or_neither_rejected example_cache None
                           both_known_symbol))); eexists; reflexivity.
Defined.

(** C3 as stated fails: a request with both amount and total whose symbol
    is not in the cache is rejected with invalid_pair, not invalid_params. *)
Lemma both_present_unknown_symbol_not_invalid_params :
  is_Some (amount both_unknown_symbol) /\ is_Some (total both_unknown_symbol)
  /\ validate example_cache None both_unknown_symbol = Err invalid_pair
  /\ validate example_cache None both_unknown_symbol <> Err invalid_params.
Proof.
  split; [by eexists|]. split; [by eexists|].
  assert (H : validate example_cache None both_unknown_symbol = Err invalid_pair)
    by (vm_compute; reflexivity).
  split; [exact H|]. rewrite H. discriminate.
Qed.


(** The two prices of the example against a tick of 0.01, whatever the
    quote precision of the market. *)
Lemma tick_example (md : MarketMetadata) :
  quote_tick_size md = Decimal.dec "0.01" ->
  price_on_grid md (Decimal.dec "100.005") = false
  /\ price_on_grid md (Decimal.dec "100.00") = true.
Proof.
  intros Htick. unfold price_on_grid. rewrite Htick. split.
  - reflexivity.
  - apply andb_true_intro. split; [reflexivity|].
    apply fits_precision_spec.
    exists (100 * Decimal.pow10 (trade_quote_precision md))%Z.
    change (Decimal.dec "100.00") with {| Decimal.mant := 10000; Decimal.scale := 2 |}.
    cbn [Decimal.mant Decimal.scale].
    change (Decimal.pow10 2) with 100%Z. lia.
Qed.

(** C4, amended.  The validator accepts a limit or stop_limit request only
    if its price is an integer multiple of quote_tick_size with at most
    trade_quote_precision fractional digits.  When the request passes checks
    1 to 4 (known symbol, exactly one of amount and total, price > 0, and
    stop_price > 0 for stop_limit) and its price is not such a multiple, it
    is rejected with invalid_order_value.  With a tick of 0.01 the price
    100.005 is off the grid and 100.00 is on it; on the BTC/USDT market the
    first request is rejected with invalid_order_value and the second is
    accepted. *)
Theorem price_off_grid_rejected :
  (forall (cache : Cache) (ref_price : option Decimal.t) (req : OrderRequest)
          (v : ValidOrder),
     type req = limit \/ type req = stop_limit ->
     validate cache ref_price req = Ok v ->
     exists p, price req = Some p
       /\ price_on_grid (metadata v) p = true
       /\ (Decimal.mant (quote_tick_size (metadata v)) <> 0
           /\ exists k : Z,
                Decimal.mant p * Decimal.pow10 (Decimal.scale (quote_tick_size (metadata v)))
                = k * Decimal.mant (quote_tick_size (metadata v))
                  * Decimal.pow10 (Decimal.scale p))%Z
       /\ (exists m : Z,
             Decimal.mant p * Decimal.pow10 (trade_quote_precision (metadata v))
             = m * Decimal.pow10 (Decimal.scale p))%Z)
  /\ (forall (cache : Cache) (ref_price : option Decimal.t) (req : OrderRequest)
             (md : MarketMetadata) (p : Decimal.t),
        type req = limit \/ type req = stop_limit ->
        cache !! symbol req = Some md ->
        check_exclusive req = Ok tt ->
        price req = Some p -> Decimal.is_positive p = true ->
        check_stop_price req = Ok tt ->
        price_on_grid md p = false ->
        validate cache ref_price req = Err invalid_order_value)
  /\ (forall md : MarketMetadata,
        quote_tick_size md = Decimal.dec "0.01" ->
        price_on_grid md (Decimal.dec "100.005") = false
        /\ price_on_grid md (Decimal.dec "100.00") = true)
  /\ validate example_cache None off_tick = Err invalid_order_value
  /\ (exists v, validate example_cache None on_tick = Ok v).
Proof.
  split; [|split; [|split; [|split]]].
  - intros cache ref_price req v Hty Hv.
    apply validate_ok_inv in Hv as (md & _ & _ & _ & _ & H5 & _ & -> & _).
    unfold check_price_grid in H5.
    assert (Hpr : priced (type req) = true) by (destruct Hty as [-> | ->]; reflexivity).
    rewrite Hpr in H5. destruct (price req) as [p|]; [|discriminate].
    apply require_ok in H5. exists p. split; [reflexivity|].
    split; [exact H5|].
    unfold price_on_grid in H5. apply andb_prop in H5 as [Hm Hf].
    split; [by apply is_multiple_of_spec | by apply fits_precision_spec].
  - intros cache ref_price req md p Hty Hs H2 Hp Hpos H4 Hgrid.
    assert (Hpr : priced (type req) = true) by (destruct Hty as [-> | ->]; reflexivity).
    rewrite (validate_known _ _ _ _ Hs), H2. simpl.
    unfold check_price. rewrite Hpr, Hp. simpl. rewrite Hpos. simpl.
    rewrite H4. simpl.
    unfold check_price_grid. rewrite Hpr, Hp, Hgrid. reflexivity.
  - exact tick_example.
  - vm_compute. reflexivity.
  - eexists. vm_compute. reflexivity.
Qed.

Lemma price_off_grid_rejected_witness :
  (type off_tick = limit \/ type off_tick = stop_limit)
  /\ example_cache !! symbol off_tick = Some btc_usdt
  /\ check_exclusive off_tick = Ok tt
  /\ price off_tick = Some (Decimal.dec "100.005")
  /\ Decimal.is_positive (Decimal.dec "100.005") = true
  /\ check_stop_price off_tick = Ok tt
  /\ price_on_grid btc_usdt (Decimal.dec "100.005") = false
  /\ validate example_cache None off_tick = Err invalid_order_value.
Proof.
  split; [left; reflexivity|].
  repeat (split; [vm_compute; reflexivity|]).
  apply (proj1 (proj2 price_off_grid_rejected) example_cache None off_tick
           btc_usdt (Decimal.dec "100.005"));
    first [left; reflexivity | vm_compute; reflexivity].
Defined.

(** C4 as stated fails: a limit request on a known symbol whose price is
    off the tick, but which gives neither amount nor total, is rejected
    with invalid_params, not invalid_order_value. *)
Lemma off_tick_price_not_invalid_order_value :
  type off_tick_no_amount = limit
  /\ example_cache !! symbol off_tick_no_amount = Some btc_usdt
  /\ price off_tick_no_amount = Some (Decimal.dec "100.005")
  /\ price_on_grid btc_usdt (Decimal.dec "100.005") = false
  /\ validate example_cache None off_tick_no_amount = Err invalid_params
  /\ validate example_cache None off_tick_no_amount <> Err invalid_order_value.
Proof.
  repeat (split; [vm_compute; reflexivity|]).
  vm_compute. discriminate.
Qed.

Lemma unknown_symbol_is_invalid_pair_witness :
  example_cache !! symbol all_wrong = None
  /\ exactly_one all_wrong = false
  /\ positive_field (price all_wrong) = false
  /\ positive_field (stop_price all_wrong) = false
  /\ validate example_cache None all_wrong = Err invalid_pair.
Proof.
  repeat (split; [vm_compute; reflexivity|]).
  apply (proj1 (unknown_symbol_is_invalid_pair example_cache None all_wrong)).
  vm_compute. reflexivity.
Defined.

End OrderValidatorFacts.

(* ===================================================================== *)
(** * Further properties of the playground script *)
(* ===================================================================== *)

Module PlaygroundMore.
Import JS Playground PlaygroundEvents PlaygroundFacts.

Lemma value_set (id id' : string) (text : jsstring) (document : Document) :
  value <$> set_textContent id text document !! id' = value <$> document !! id'.
Proof.
  unfold set_textContent. destruct (decide (id = id')) as [->|Hne].
  - rewrite lookup_alter_eq. destruct (document !! id'); reflexivity.
  - by rewrite lookup_alter_ne.
Qed.

Lemma input_value_set (id id' : string) (text : jsstring) (document : Document) :
  input_value (set_textContent id text document) id' = input_value document id'.
Proof.
  unfold input_value. pose proof (value_set id id' text document) as H.
  destruct (set_textContent id text document !! id'), (document !! id');
    simpl in H; congruence.
Qed.

Lemma page_loaded_set (id : string) (text : jsstring) (document : Document) :
  page_loaded (set_textContent id text document) <-> page_loaded document.
Proof.
  assert (H : forall id', is_Some (set_textContent id text document !! id')
                          <-> is_Some (document !! id')).
  { intros id'. rewrite <- !fmap_is_Some with (f := value), value_set. reflexivity. }
  unfold page_loaded. rewrite !H. reflexivity.
Qed.

Lemma page_loaded_dec (document : Document) :
  page_loaded document \/ ~ page_loaded document.
Proof.
  unfold page_loaded.
  destruct (document !! "method"); [|right; intros (H & _); by destruct H].
  destruct (document !! "params"); [|right; intros (_ & H & _); by destruct H].
  destruct (document !! "reqid"); [|right; intros (_ & _ & H & _); by destruct H].
  destruct (document !! "requestPreview");
    [|right; intros (_ & _ & _ & H & _); by destruct H].
  destruct (document !! "responseBox");
    [|right; intros (_ & _ & _ & _ & H); by destruct H].
  left. repeat split; eexists; reflexivity.
Qed.

(** The three ways a call of [callApi] can go. *)
Lemma callApi_shape (env : Browser) (document : Document) :
  (~ page_loaded document /\ callApi env document = (document, []))
  \/ (page_loaded document /\ exists e,
        parse_params env (input_value document "params") = inr e
        /\ callApi env document =
             (set_textContent "responseBox"
                (js "Params JSON parse error:" ++ [0x0A] ++ e) document, []))
  \/ (page_loaded document /\ exists paramsObj,
        parse_params env (input_value document "params") = inl paramsObj
        /\ callApi env document =
             (set_textContent "responseBox"
                (response_text env (request_of document paramsObj))
                (set_textContent "requestPreview"
                   (body (request_of document paramsObj)) document),
              [request_of document paramsObj])).
Proof.
  destruct (page_loaded_dec document) as [Hp|Hn].
  - right. rewrite (callApi_loaded env document Hp).
    destruct (parse_params env (input_value document "params")) as [v|e].
    + right. split; [exact Hp|]. exists v. split; reflexivity.
    + left. split; [exact Hp|]. exists e. split; reflexivity.
  - left. split; [exact Hn|]. by apply callApi_not_loaded.
Qed.


Lemma set_set_same (id : string) (t1 t2 : jsstring) (document : Document) :
  set_textContent id t2 (set_textContent id t1 document)
  = set_textContent id t2 document.
Proof.
  unfold set_textContent. apply map_eq. intros j.
  destruct (decide (id = j)) as [->|Hne].
  - rewrite !lookup_alter_eq. destruct (document !! j); reflexivity.
  - by rewrite !lookup_alter_ne.
Qed.

Lemma set_set_comm (id1 id2 : string) (t1 t2 : jsstring) (document : Document) :
  id1 <> id2 ->
  set_textContent id1 t1 (set_textContent id2 t2 document)
  = set_textContent id2 t2 (set_textContent id1 t1 document).
Proof.
  intros Hne. unfold set_textContent. apply map_eq. intros j.
  destruct (decide (id1 = j)) as [->|H1]; destruct (decide (id2 = j)) as [->|H2];
    try congruence;
    repeat first [rewrite lookup_alter_eq | rewrite lookup_alter_ne by done];
    reflexivity.
Qed.

(** X1. When one of the five elements is missing, [callApi] returns at
    once: the document is left as it is and nothing is sent. *)
Theorem callApi_missing_element_noop (env : Browser) (document : Document) :
  document !! "method" = None \/ document !! "params" = None
  \/ document !! "reqid" = None \/ document !! "requestPreview" = None
  \/ document !! "responseBox" = None ->
  callApi env document = (document, []).
Proof.
  intros H. apply callApi_not_loaded.
  intros (H1 & H2 & H3 & H4 & H5).
  destruct H as [H|[H|[H|[H|H]]]]; rewrite H in *;
    match goal with Hs : is_Some None |- _ => by destruct Hs end.
Qed.

Lemma callApi_missing_element_noop_witness :
  (∅ : Document) !! "method" = None
  /\ callApi example_browser ∅ = (∅, []).
Proof.
  split; [reflexivity|].
  apply (callApi_missing_element_noop example_browser ∅).
  left. reflexivity.
Defined.

(** X2. [callApi] never changes what the form controls hold and never adds
    or removes an element: it keeps the set of element ids and every
    element's value, and the only elements it can change at all are the
    request preview and the response box. *)
Theorem callApi_preserves_form (env : Browser) (document : Document) :
  dom (callApi env document).1 = dom document
  /\ (forall id : string,
        value <$> (callApi env document).1 !! id = value <$> document !! id)
  /\ (forall id : string,
        id <> "requestPreview"%string -> id <> "responseBox"%string ->
        (callApi env document).1 !! id = document !! id).
Proof.
  destruct (callApi_shape env document)
    as [[_ ->]|[[_ (e & _ & ->)]|[_ (v & _ & ->)]]]; cbn [fst snd].
  - repeat split.
  - split; [apply dom_alter_L|]. split.
    + intros id. apply value_set.
    + intros id _ Hb. by apply lookup_set_other.
  - split; [unfold set_textContent; by rewrite !dom_alter_L|]. split.
    + intros id. by rewrite !value_set.
    + intros id Hp Hb. by rewrite !lookup_set_other.
Qed.

Lemma callApi_preserves_form_witness :
  "method"%string <> "requestPreview"%string
  /\ "method"%string <> "responseBox"%string
  /\ (callApi example_browser (example_page (js "ohlcv") [] [])).1 !! "method"
     = example_page (js "ohlcv") [] [] !! "method".
Proof.
  split; [discriminate|]. split; [discriminate|].
  apply (proj2 (proj2 (callApi_preserves_form example_browser
                         (example_page (js "ohlcv") [] []))));
    discriminate.
Defined.

(** X3. For every document, [callApi] sends at most one request, and the
    preview is in step with it: when a request is sent, it is the POST to
    the endpoint and the preview shows its body; when none is sent, the
    preview element is untouched. *)
Theorem callApi_preview_in_step (env : Browser) (document : Document) :
  match (callApi env document).2 with
  | [] =>
      (callApi env document).1 !! "requestPreview" = document !! "requestPreview"
  | [req] =>
      shown (callApi env document).1 "requestPreview" = Some (body req)
      /\ url req = js "https://api.citronus.com/public/v1/jsonrpc"
      /\ http_method req = js "POST"
  | _ :: _ :: _ => False
  end.
Proof.
  destruct (callApi_shape env document)
    as [[_ ->]|[[_ (e & _ & ->)]|[Hp (v & _ & ->)]]]; cbn [fst snd].
  - reflexivity.
  - by apply lookup_set_other.
  - split; [|split; reflexivity].
    unfold shown. rewrite lookup_set_other by discriminate.
    apply shown_set_same, Hp.
Qed.

(** X4. Whenever [callApi] sends a request, the response box ends up
    showing the outcome: the message "Request failed:" and the error when
    the fetch or the reading of the response fails, the response text as it
    is when it is not JSON, and the response re-serialised with an
    indentation of two spaces when it is JSON. *)
Theorem callApi_response_box (env : Browser) (document : Document)
    (req : Request) :
  (callApi env document).2 = [req] ->
  (forall err, fetch_text env req = inr err ->
     shown (callApi env document).1 "responseBox"
     = Some (js "Request failed:" ++ [0x0A] ++ err))
  /\ (forall text e, fetch_text env req = inl text ->
        JSON_parse env text = inr e ->
        shown (callApi env document).1 "responseBox" = Some text)
  /\ (forall text json, fetch_text env req = inl text ->
        JSON_parse env text = inl json ->
        shown (callApi env document).1 "responseBox"
        = Some (JSON_stringify_pretty json)).
Proof.
  destruct (callApi_shape env document)
    as [[_ ->]|[[_ (e & _ & ->)]|[Hp (v & _ & ->)]]]; cbn [fst snd];
    try discriminate.
  intros [= <-].
  assert (Hs : shown (set_textContent "responseBox"
                        (response_text env (request_of document v))
                        (set_textContent "requestPreview"
                           (body (request_of document v)) document))
                 "responseBox"
               = Some (response_text env (request_of document v))).
  { apply shown_set_same. apply page_loaded_set, Hp. }
  rewrite Hs. unfold response_text.
  repeat split; intros; repeat match goal with H : _ = _ |- _ => rewrite H end;
    reflexivity.
Qed.

Lemma callApi_response_box_witness :
  (callApi offline_browser (example_page (js "tickers") [] [])).2
  = [request_of (example_page (js "tickers") [] []) (JObj [])]
  /\ fetch_text offline_browser
       (request_of (example_page (js "tickers") [] []) (JObj []))
     = inr (js "TypeError: Failed to fetch")
  /\ shown (callApi offline_browser (example_page (js "tickers") [] [])).1
       "responseBox"
     = Some (js "Request failed:" ++ [0x0A] ++ js "TypeError: Failed to fetch").
Proof.
  split; [reflexivity|]. split; [reflexivity|].
  apply (proj1 (callApi_response_box offline_browser
                  (example_page (js "tickers") [] [])
                  (request_of (example_page (js "tickers") [] []) (JObj []))
                  eq_refl)).
  reflexivity.
Defined.

(** X5. A second call of [callApi] right after the first, with the same
    browser answers, sends the same request again and leaves the document
    as the first call left it. *)
Theorem callApi_again (env : Browser) (document : Document) :
  callApi env (callApi env document).1
  = ((callApi env document).1, (callApi env document).2).
Proof.
  destruct (callApi_shape env document)
    as [[Hn Hc]|[[Hp (e & He & Hc)]|[Hp (v & Hv & Hc)]]]; rewrite Hc; cbn [fst snd].
  - exact Hc.
  - set (d1 := set_textContent "responseBox" _ document).
    assert (Hp1 : page_loaded d1) by by apply page_loaded_set.
    rewrite (callApi_loaded env d1 Hp1).
    unfold d1 at 1. rewrite input_value_set, He. cbv beta iota.
    unfold d1. by rewrite set_set_same.
  - set (b := body (request_of document v)).
    set (d1 := set_textContent "responseBox" _ _).
    assert (Hp1 : page_loaded d1) by by apply page_loaded_set, page_loaded_set.
    rewrite (callApi_loaded env d1 Hp1).
    assert (Hi : forall id, input_value d1 id = input_value document id).
    { intros id. unfold d1. by rewrite !input_value_set. }
    rewrite !Hi, Hv. cbv zeta.
    fold (request_of document v). fold b. f_equal.
    unfold d1.
    rewrite (set_set_comm "requestPreview" "responseBox") by discriminate.
    by rewrite !set_set_same.
Qed.

End PlaygroundMore.

(* ===================================================================== *)
(** * Properties of trim and of the JSON text *)
(* ===================================================================== *)

Module TextFacts.
Import JS JSONText PlaygroundFacts.

Lemma trimStart_split (s : jsstring) :
  exists l, s = l ++ trimStart s /\ forallb is_white_space l = true.
Proof.
  induction s as [|c s (l & Hl & Hw)]; [by exists []|]. simpl.
  destruct (is_white_space c) eqn:Hc.
  - exists (c :: l). simpl. rewrite Hc, Hw. split; [by f_equal | reflexivity].
  - by exists [].
Qed.

Lemma trimStart_head (s : jsstring) (c : N) :
  head (trimStart s) = Some c -> is_white_space c = false.
Proof.
  induction s as [|a s IH]; simpl; [discriminate|].
  destruct (is_white_space a) eqn:Ha; [exact IH|].
  simpl. congruence.
Qed.

Lemma trimStart_id (s : jsstring) :
  (forall c, head s = Some c -> is_white_space c = false) -> trimStart s = s.
Proof.
  destruct s as [|a s]; [reflexivity|]. simpl. intros H.
  by rewrite (H a eq_refl).
Qed.

Lemma trimStart_white_app (l s : jsstring) :
  forallb is_white_space l = true -> trimStart (l ++ s) = trimStart s.
Proof.
  induction l as [|a l IH]; simpl; [reflexivity|].
  destruct (is_white_space a); simpl; [exact IH | discriminate].
Qed.

Lemma trimStart_app_white (s r : jsstring) :
  forallb is_white_space r = true ->
  trimStart (s ++ r) = match trimStart s with [] => [] | m => m ++ r end.
Proof.
  intros Hr. induction s as [|a s IH]; simpl.
  - by apply trimStart_nil.
  - destruct (is_white_space a); [exact IH | reflexivity].
Qed.

Lemma head_rev (s : jsstring) : head (rev s) = last s.
Proof. rewrite rev_alt. apply head_reverse. Qed.

Lemma last_rev (s : jsstring) : last (rev s) = head s.
Proof. rewrite <- head_rev, rev_involutive. reflexivity. Qed.

(** White space around a string does not change what it trims to. *)
Lemma trim_padding (l s r : jsstring) :
  forallb is_white_space l = true -> forallb is_white_space r = true ->
  trim (l ++ s ++ r) = trim s.
Proof.
  intros Hl Hr. unfold trim at 1.
  rewrite (trimStart_white_app l _ Hl), (trimStart_app_white s r Hr).
  destruct (trimStart s) as [|a m] eqn:Hs.
  { unfold trim. by rewrite Hs. }
  unfold trim. rewrite Hs. unfold trimEnd. rewrite rev_app_distr.
  by rewrite trimStart_white_app by by rewrite forallb_rev.
Qed.

(** X6. What [trim] does: the string is white space, then the trimmed
    string, then white space, and the trimmed string neither starts nor
    ends with white space; so trimming again changes nothing, and white
    space added around a string does not change what it trims to. *)
Theorem trim_spec (s : jsstring) :
  (exists l r, s = l ++ trim s ++ r
               /\ forallb is_white_space l = true
               /\ forallb is_white_space r = true)
  /\ (forall c, head (trim s) = Some c -> is_white_space c = false)
  /\ (forall c, last (trim s) = Some c -> is_white_space c = false)
  /\ trim (trim s) = trim s
  /\ (forall l r, forallb is_white_space l = true ->
        forallb is_white_space r = true -> trim (l ++ s ++ r) = trim s).
Proof.
  assert (Hlast : forall c, last (trim s) = Some c -> is_white_space c = false).
  { intros c. unfold trim, trimEnd. rewrite last_rev. apply trimStart_head. }
  destruct (trimStart_split s) as (l & Hl & Hlw).
  destruct (trimStart_split (rev (trimStart s))) as (r & Hr & Hrw).
  assert (Hm : trimStart s = trim s ++ rev r).
  { unfold trim, trimEnd. rewrite <- rev_app_distr, <- Hr.
    by rewrite rev_involutive. }
  assert (Hhead : forall c, head (trim s) = Some c -> is_white_space c = false).
  { intros c Hc. apply (trimStart_head s). rewrite Hm.
    destruct (trim s); [discriminate | exact Hc]. }
  split.
  { exists l, (rev r). split; [by rewrite <- Hm|].
    split; [exact Hlw | by rewrite forallb_rev]. }
  split; [exact Hhead|]. split; [exact Hlast|]. split.
  { unfold trim at 1. rewrite (trimStart_id (trim s) Hhead).
    unfold trimEnd. rewrite trimStart_id; [apply rev_involutive|].
    intros c. rewrite head_rev. apply Hlast. }
  intros l' r'. apply trim_padding.
Qed.

Lemma trim_spec_witness :
  forallb is_white_space [0x20; 0x09] = true
  /\ forallb is_white_space [0x0A] = true
  /\ trim ([0x20; 0x09] ++ js "a b" ++ [0x0A]) = trim (js "a b").
Proof.
  split; [reflexivity|]. split; [reflexivity|].
  apply (proj2 (proj2 (proj2 (proj2 (trim_spec (js "a b")))))); reflexivity.
Defined.

(** The recursion of [quote_units], as an induction principle. *)
Lemma quote_units_ind (P : jsstring -> jsstring -> Prop) :
  P [] [] ->
  (forall h s, P s (quote_units s) -> P (h :: s) (quote_unit h ++ quote_units s)) ->
  (forall h l s, is_high_surrogate h = true -> is_low_surrogate l = true ->
     P s (quote_units s) -> P (h :: l :: s) (h :: l :: quote_units s)) ->
  forall s, P s (quote_units s).
Proof.
  intros Hnil Hone Hpair.
  assert (H : forall n s, (length s <= n)%nat -> P s (quote_units s)).
  { induction n as [|n IH]; intros s Hlen.
    - destruct s; [exact Hnil | simpl in Hlen; lia].
    - destruct s as [|h [|l s]]; [exact Hnil | |].
      + specialize (Hone h [] Hnil). by rewrite app_nil_r in Hone.
      + simpl in Hlen. cbn [quote_units].
        destruct (is_high_surrogate h && is_low_surrogate l) eqn:Hhl.
        * apply andb_prop in Hhl as [Hh Hl].
          apply Hpair; [exact Hh | exact Hl | apply IH; lia].
        * apply Hone. apply IH. simpl. lia. }
  intros s. by apply (H (length s)).
Qed.

Lemma is_hex_digit_hex_digit (d : N) : d < 16 -> is_hex_digit (hex_digit d) = true.
Proof.
  intros Hd. unfold is_hex_digit, hex_digit.
  destruct (N.ltb_spec d 10).
  - replace ((0x30 <=? 0x30 + d) && (0x30 + d <=? 0x39)) with true; [reflexivity|].
    symmetry. apply andb_true_intro. split; apply N.leb_le; lia.
  - replace ((0x61 <=? 0x61 + (d - 10)) && (0x61 + (d - 10) <=? 0x66)) with true;
      [by rewrite orb_true_r|].
    symmetry. apply andb_true_intro. split; apply N.leb_le; lia.
Qed.

Lemma hex_digit_range (d : N) :
  d < 16 -> 0x30 <= hex_digit d /\ hex_digit d <= 0x66.
Proof. intros Hd. unfold hex_digit. destruct (N.ltb_spec d 10); lia. Qed.

Lemma mod16_lt (x : N) : x mod 16 < 16.
Proof. apply N.mod_lt. lia. Qed.

(** The cases of [quote_unit]: one of the seven short escapes, a [\u]
    escape of a control character or surrogate, or the code unit itself. *)
Lemma quote_unit_cases (c : N) :
  (exists e, quote_unit c = [0x5C; e] /\ is_simple_escape e = true)
  \/ (quote_unit c = [0x5C; 0x75; hex_digit (c / 4096 mod 16);
                      hex_digit (c / 256 mod 16); hex_digit (c / 16 mod 16);
                      hex_digit (c mod 16)])
  \/ (quote_unit c = [c] /\ c <> 0x5C /\ c <> 0x22 /\ 0x20 <= c
      /\ is_high_surrogate c = false /\ is_low_surrogate c = false).
Proof.
  unfold quote_unit.
  destruct (N.eqb_spec c 0x08); [left; by eexists|].
  destruct (N.eqb_spec c 0x09); [left; by eexists|].
  destruct (N.eqb_spec c 0x0A); [left; by eexists|].
  destruct (N.eqb_spec c 0x0C); [left; by eexists|].
  destruct (N.eqb_spec c 0x0D); [left; by eexists|].
  destruct (N.eqb_spec c 0x22); [left; by eexists|].
  destruct (N.eqb_spec c 0x5C); [left; by eexists|].
  destruct (N.ltb_spec c 0x20); [right; left; reflexivity|].
  destruct (is_high_surrogate c) eqn:Hh; [right; left; reflexivity|].
  destruct (is_low_surrogate c) eqn:Hl; [right; left; reflexivity|].
  right. right. simpl. repeat split; assumption.
Qed.


Lemma simple_escape_range (e : N) :
  is_simple_escape e = true -> 0x20 <= e /\ e < 0xD800.
Proof.
  unfold is_simple_escape. intros H.
  repeat (apply orb_prop in H as [H|H]); apply N.eqb_eq in H; lia.
Qed.

Lemma not_surrogate (c : N) :
  c < 0xD800 -> is_high_surrogate c = false /\ is_low_surrogate c = false.
Proof.
  intros Hc. unfold is_high_surrogate, is_low_surrogate.
  split; apply andb_false_intro1; apply N.leb_gt; lia.
Qed.

Lemma surrogate_range (c : N) :
  is_high_surrogate c = true \/ is_low_surrogate c = true -> 0xD800 <= c.
Proof.
  unfold is_high_surrogate, is_low_surrogate.
  intros [H|H]; apply andb_prop in H as [H _]; apply N.leb_le in H; lia.
Qed.

Lemma string_chars_raw (c : N) (t : jsstring) :
  c <> 0x5C -> c <> 0x22 -> 0x20 <= c ->
  string_chars (c :: t) = string_chars t.
Proof.
  intros H1 H2 H3. cbn [string_chars].
  destruct (N.eqb_spec c 0x5C); [contradiction|].
  destruct (N.ltb_spec c 0x20); [lia|].
  destruct (N.eqb_spec c 0x22); [contradiction|]. reflexivity.
Qed.

Lemma string_chars_quote_unit (c : N) (t : jsstring) :
  string_chars (quote_unit c ++ t) = string_chars t.
Proof.
  destruct (quote_unit_cases c) as [(e & -> & He)|[->|(-> & H1 & H2 & H3 & _)]].
  - cbn [app string_chars]. change (0x5C =? 0x5C) with true. cbv iota.
    by rewrite He.
  - cbn [app string_chars]. change (0x5C =? 0x5C) with true. cbv iota.
    change (is_simple_escape 0x75) with false.
    change (0x75 =? 0x75) with true. cbv iota.
    by rewrite !is_hex_digit_hex_digit by apply mod16_lt.
  - by apply string_chars_raw.
Qed.

Lemma well_formed_raw (c : N) (t : jsstring) :
  is_high_surrogate c = false -> is_low_surrogate c = false ->
  well_formed_utf16 (c :: t) = well_formed_utf16 t.
Proof. intros Hh Hl. cbn [well_formed_utf16]. by rewrite Hh, Hl. Qed.

Lemma well_formed_small (c : N) (t : jsstring) :
  c < 0xD800 -> well_formed_utf16 (c :: t) = well_formed_utf16 t.
Proof. intros Hc. by apply well_formed_raw; apply not_surrogate. Qed.

Lemma hex_digit_small (d : N) : hex_digit (d mod 16) < 0xD800.
Proof. pose proof (hex_digit_range (d mod 16) (mod16_lt d)). lia. Qed.

Lemma well_formed_quote_unit (c : N) (t : jsstring) :
  well_formed_utf16 (quote_unit c ++ t) = well_formed_utf16 t.
Proof.
  destruct (quote_unit_cases c) as [(e & -> & He)|[->|(-> & _ & _ & _ & Hh & Hl)]].
  - apply simple_escape_range in He as [_ He]. cbn [app].
    rewrite well_formed_small by lia. by apply well_formed_small.
  - cbn [app].
    rewrite (well_formed_small 0x5C) by lia.
    rewrite (well_formed_small 0x75) by lia.
    by rewrite !well_formed_small by apply hex_digit_small.
  - by apply well_formed_raw.
Qed.

Lemma printable_quote_unit (c : N) : Forall (fun u => 0x20 <= u) (quote_unit c).
Proof.
  destruct (quote_unit_cases c) as [(e & -> & He)|[->|(-> & _ & _ & H3 & _)]].
  - apply simple_escape_range in He as [He _].
    repeat constructor; [lia | exact He].
  - pose proof (fun d => proj1 (hex_digit_range (d mod 16) (mod16_lt d))) as Hd.
    repeat constructor; try lia;
      match goal with |- _ <= hex_digit (?d mod 16) => specialize (Hd d); lia end.
  - by repeat constructor.
Qed.

(** X7. What [JSON.stringify] makes of a string is always a JSON string:
    it is enclosed in quotation marks, between them every quotation mark,
    backslash and control character is escaped, no code unit below U+0020
    is left, and no lone surrogate is left either (the text is well-formed
    UTF-16), whatever the string is. *)
Theorem quote_is_json_string (s : jsstring) :
  is_json_string (quote s) = true
  /\ Forall (fun u => 0x20 <= u) (quote s)
  /\ well_formed_utf16 (quote s) = true.
Proof.
  assert (Hchars : forall t, string_chars (quote_units s ++ t) = string_chars t).
  { apply (quote_units_ind
             (fun _ out => forall t, string_chars (out ++ t) = string_chars t)).
    - reflexivity.
    - intros h s' IH t. by rewrite <- app_assoc, string_chars_quote_unit.
    - intros h l s' Hh Hl IH t. cbn [app].
      pose proof (surrogate_range h (or_introl Hh)).
      pose proof (surrogate_range l (or_intror Hl)).
      rewrite !string_chars_raw by lia. apply IH. }
  assert (Hwf : forall t, well_formed_utf16 (quote_units s ++ t) = well_formed_utf16 t).
  { apply (quote_units_ind
             (fun _ out => forall t, well_formed_utf16 (out ++ t) = well_formed_utf16 t)).
    - reflexivity.
    - intros h s' IH t. by rewrite <- app_assoc, well_formed_quote_unit.
    - intros h l s' Hh Hl IH t. cbn [app well_formed_utf16].
      rewrite Hh, Hl. apply IH. }
  assert (Hpr : Forall (fun u => 0x20 <= u) (quote_units s)).
  { apply (quote_units_ind (fun _ out => Forall (fun u => 0x20 <= u) out)).
    - constructor.
    - intros h s' IH. apply Forall_app. split; [apply printable_quote_unit | exact IH].
    - intros h l s' Hh Hl IH.
      pose proof (surrogate_range h (or_introl Hh)).
      pose proof (surrogate_range l (or_intror Hl)).
      repeat constructor; try lia. exact IH. }
  unfold quote. split; [|split].
  - cbn [app is_json_string]. rewrite rev_app_distr. cbn [rev app].
    rewrite rev_involutive. change (0x22 =? 0x22) with true. cbn [andb].
    rewrite <- (app_nil_r (quote_units s)). by rewrite Hchars.
  - apply Forall_app. split; [repeat constructor; lia|].
    apply Forall_app. split; [exact Hpr | repeat constructor; lia].
  - cbn [app]. rewrite well_formed_small by lia.
    rewrite Hwf. reflexivity.
Qed.

End TextFacts.

(* ===================================================================== *)
(** * Properties of the requests and of the handler registration *)
(* ===================================================================== *)

Module RequestFacts.
Import JS Playground PlaygroundEvents PlaygroundFacts PlaygroundMore TextFacts.

(** X8. The request [callApi] sends is decided by the selected method, the
    params text and the trimmed request id alone: two pages that agree on
    these (and on having the five elements) send the same requests,
    whatever else they show. *)
Theorem callApi_requests_by_inputs (env : Browser) (d1 d2 : Document) :
  (page_loaded d1 <-> page_loaded d2) ->
  input_value d1 "method" = input_value d2 "method" ->
  input_value d1 "params" = input_value d2 "params" ->
  trim (input_value d1 "reqid") = trim (input_value d2 "reqid") ->
  (callApi env d1).2 = (callApi env d2).2.
Proof.
  intros Hl Hm Hp Hr.
  destruct (callApi_shape env d1)
    as [[Hn1 ->]|[[Hp1 (e1 & He1 & ->)]|[Hp1 (v1 & Hv1 & ->)]]];
    destruct (callApi_shape env d2)
      as [[Hn2 ->]|[[Hp2 (e2 & He2 & ->)]|[Hp2 (v2 & Hv2 & ->)]]];
    cbn [snd]; try reflexivity; try tauto; rewrite Hp in *; try congruence.
  assert (v1 = v2) as -> by congruence.
  unfold request_of. by rewrite Hm, Hr.
Qed.

Lemma callApi_requests_by_inputs_witness :
  (page_loaded (example_page (js "markets") [] (js " 1 "))
   <-> page_loaded (example_page (js "markets") [] (js "1")))
  /\ trim (js " 1 ") = trim (js "1")
  /\ (callApi example_browser (example_page (js "markets") [] (js " 1 "))).2
     = (callApi example_browser (example_page (js "markets") [] (js "1"))).2.
Proof.
  assert (H : page_loaded (example_page (js "markets") [] (js " 1 "))
              <-> page_loaded (example_page (js "markets") [] (js "1"))).
  { split; intros _; apply example_page_loaded. }
  split; [exact H|]. split; [reflexivity|].
  apply (callApi_requests_by_inputs example_browser
           (example_page (js "markets") [] (js " 1 "))
           (example_page (js "markets") [] (js "1")) H);
    reflexivity.
Defined.

(** X9. The text of every body [callApi] sends: one line without spaces
    between the tokens, the keys in the order jsonrpc, method, params and,
    when the trimmed request id is not empty, id; the method and the id as
    JSON strings, the params as [JSON.stringify] writes the parsed value. *)
Theorem callApi_body_text (env : Browser) (document : Document)
    (req : Request) :
  (callApi env document).2 = [req] ->
  exists paramsObj,
    ((input_value document "params" = [] /\ paramsObj = JObj [])
     \/ (input_value document "params" <> []
         /\ JSON_parse env (input_value document "params") = inl paramsObj))
    /\ body req =
         js "{" ++ quote (js "jsonrpc") ++ js ":" ++ quote (js "2.0")
         ++ js "," ++ quote (js "method") ++ js ":"
         ++ quote (input_value document "method")
         ++ js "," ++ quote (js "params") ++ js ":" ++ JSON_stringify paramsObj
         ++ match trim (input_value document "reqid") with
            | [] => []
            | id => js "," ++ quote (js "id") ++ js ":" ++ quote id
            end
         ++ js "}".
Proof.
  destruct (callApi_shape env document)
    as [[_ ->]|[[_ (e & _ & ->)]|[Hp (v & Hv & ->)]]]; cbn [snd];
    try discriminate.
  intros [= <-]. exists v. split.
  - unfold parse_params in Hv.
    destruct (input_value document "params") eqn:Ht.
    + left. split; [reflexivity | congruence].
    + right. split; [discriminate | exact Hv].
  - unfold request_of. cbn [body]. rewrite stringify_body.
    by destruct (trim (input_value document "reqid")).
Qed.

Lemma callApi_body_text_witness :
  (callApi example_browser (example_page (js "markets") [] (js "7"))).2
  = [request_of (example_page (js "markets") [] (js "7")) (JObj [])]
  /\ exists paramsObj,
       body (request_of (example_page (js "markets") [] (js "7")) (JObj []))
       = js "{" ++ quote (js "jsonrpc") ++ js ":" ++ quote (js "2.0")
         ++ js "," ++ quote (js "method") ++ js ":" ++ quote (js "markets")
         ++ js "," ++ quote (js "params") ++ js ":" ++ JSON_stringify paramsObj
         ++ js "," ++ quote (js "id") ++ js ":" ++ quote (js "7")
         ++ js "}".
Proof.
  split; [reflexivity|].
  destruct (callApi_body_text example_browser
              (example_page (js "markets") [] (js "7"))
              (request_of (example_page (js "markets") [] (js "7")) (JObj []))
              eq_refl) as (v & _ & Hb).
  exists v. exact Hb.
Defined.

Lemma addEventListener_again (type : string) (cb : Callback)
    (ls : list Listener) :
  addEventListener type cb (addEventListener type cb ls)
  = addEventListener type cb ls.
Proof.
  unfold addEventListener. cbv zeta.
  destruct (decide (_ ∈ ls)) as [Hin|Hnin].
  - by rewrite decide_True.
  - rewrite decide_True; [reflexivity|].
    apply elem_of_app. right. by apply list_elem_of_singleton.
Qed.

Lemma listeners_of_attach (page : Page) :
  is_Some (page_document page !! "sendBtn") ->
  listeners_of (attachPlaygroundHandlers page) "sendBtn"
  = addEventListener "click" cb_callApi (listeners_of page "sendBtn").
Proof.
  intros [el Hel]. unfold attachPlaygroundHandlers, getElementById.
  rewrite Hel. unfold listeners_of at 1. cbn [element_listeners].
  by rewrite lookup_insert_eq.
Qed.

Lemma attach_document (page : Page) :
  page_document (attachPlaygroundHandlers page) = page_document page.
Proof.
  unfold attachPlaygroundHandlers, getElementById.
  by destruct (page_document page !! "sendBtn").
Qed.

Lemma attach_document_listeners (page : Page) :
  document_listeners (attachPlaygroundHandlers page) = document_listeners page.
Proof.
  unfold attachPlaygroundHandlers, getElementById.
  by destruct (page_document page !! "sendBtn").
Qed.

Lemma attach_attach (page : Page) :
  attachPlaygroundHandlers (attachPlaygroundHandlers page)
  = attachPlaygroundHandlers page.
Proof.
  destruct (page_document page !! "sendBtn") as [el|] eqn:Hel.
  - assert (Hs : is_Some (page_document page !! "sendBtn")) by by rewrite Hel.
    pose proof (listeners_of_attach page Hs) as Hl.
    unfold attachPlaygroundHandlers at 1. unfold getElementById.
    rewrite attach_document, Hel, Hl, addEventListener_again.
    unfold attachPlaygroundHandlers, getElementById. rewrite Hel.
    cbn [element_listeners document_listeners page_document].
    by rewrite insert_insert_eq.
  - unfold attachPlaygroundHandlers, getElementById. by rewrite !Hel.
Qed.

(** X10. [attachPlaygroundHandlers] does nothing on a page without the
    send button, and on a page with it, attaching again (as the script does
    on DOMContentLoaded and on every navigationend) changes nothing: the
    button keeps a single click listener for [callApi], and the document is
    never touched. *)
Theorem attachPlaygroundHandlers_again (page : Page) :
  (page_document page !! "sendBtn" = None ->
     attachPlaygroundHandlers page = page)
  /\ attachPlaygroundHandlers (attachPlaygroundHandlers page)
     = attachPlaygroundHandlers page
  /\ page_document (attachPlaygroundHandlers page) = page_document page
  /\ document_listeners (attachPlaygroundHandlers page) = document_listeners page
  /\ (is_Some (page_document page !! "sendBtn") ->
      listeners_of page "sendBtn" = [] ->
      listeners_of (attachPlaygroundHandlers page) "sendBtn"
      = [{| event_type := "click"; callback := cb_callApi |}]).
Proof.
  split; [|split; [|split; [|split]]].
  - intros H. unfold attachPlaygroundHandlers, getElementById. by rewrite H.
  - apply attach_attach.
  - apply attach_document.
  - apply attach_document_listeners.
  - intros Hs Hnil. rewrite (listeners_of_attach page Hs), Hnil. reflexivity.
Qed.

Lemma attachPlaygroundHandlers_again_witness :
  is_Some (page_document
             (fresh_page (example_page_with_button (js "markets") [] []))
           !! "sendBtn")
  /\ listeners_of (fresh_page (example_page_with_button (js "markets") [] []))
       "sendBtn" = []
  /\ listeners_of
       (attachPlaygroundHandlers
          (fresh_page (example_page_with_button (js "markets") [] [])))
       "sendBtn"
     = [{| event_type := "click"; callback := cb_callApi |}].
Proof.
  assert (Hs : is_Some (page_document
                          (fresh_page (example_page_with_button (js "markets") [] []))
                        !! "sendBtn")) by (vm_compute; eexists; reflexivity).
  split; [exact Hs|]. split; [reflexivity|].
  apply (proj2 (proj2 (proj2 (proj2
           (attachPlaygroundHandlers_again
              (fresh_page (example_page_with_button (js "markets") [] []))))))).
  - exact Hs.
  - reflexivity.
Defined.

Lemma load_script_listeners (document : Document) :
  document_listeners (load_script (fresh_page document))
  = [on_load; on_navigation].
Proof. reflexivity. Qed.

Lemma fire_attaches (env : Browser) (type : string) (page : Page) :
  document_listeners page = [on_load; on_navigation] ->
  type = "DOMContentLoaded"%string \/ type = "navigationend"%string ->
  fire env type page = (attachPlaygroundHandlers page, []).
Proof.
  intros Hl [-> | ->]; unfold fire, dispatch; rewrite Hl; reflexivity.
Qed.

Lemma fire_all_attaches (env : Browser) (types : list string) (page : Page)
    (sent : list Request) :
  document_listeners page = [on_load; on_navigation] ->
  Forall (fun type => type = "DOMContentLoaded"%string
                      \/ type = "navigationend"%string) types ->
  types <> [] ->
  fire_all env types (page, sent) = (attachPlaygroundHandlers page, sent).
Proof.
  intros Hl Hty. revert page sent Hl.
  induction Hty as [|type types Ht Hrest IH]; intros page sent Hl Hne; [done|].
  cbn [fire_all fst snd]. rewrite (fire_attaches env type page Hl Ht).
  cbn [fst snd]. rewrite app_nil_r.
  destruct types as [|type' types'].
  - reflexivity.
  - rewrite IH; [by rewrite attach_attach | by rewrite attach_document_listeners | done].
Qed.

(** X11. Once the script is loaded on a page with the send button and
    DOMContentLoaded and navigationend have fired, in any order and any
    number of times, a click on the button runs [callApi] exactly once: the
    events themselves send nothing and leave the document alone, and the
    click sends what one call of [callApi] sends.  Before any of these
    events has fired, a click does nothing. *)
Theorem click_runs_callApi_once (env : Browser) (document : Document)
    (types : list string) :
  is_Some (document !! "sendBtn") ->
  types <> [] ->
  Forall (fun type => type = "DOMContentLoaded"%string
                      \/ type = "navigationend"%string) types ->
  let ready := fire_all env types (load_script (fresh_page document), []) in
  ready.2 = []
  /\ page_document ready.1 = document
  /\ listeners_of ready.1 "sendBtn"
     = [{| event_type := "click"; callback := cb_callApi |}]
  /\ (click env "sendBtn" ready.1).2 = (callApi env document).2
  /\ page_document (click env "sendBtn" ready.1).1 = (callApi env document).1
  /\ click env "sendBtn" (load_script (fresh_page document))
     = (load_script (fresh_page document), []).
Proof.
  intros Hs Hne Hty ready.
  assert (Hready : ready = (attachPlaygroundHandlers
                              (load_script (fresh_page document)), [])).
  { unfold ready. by apply fire_all_attaches. }
  assert (Hl : listeners_of ready.1 "sendBtn"
               = [{| event_type := "click"; callback := cb_callApi |}]).
  { rewrite Hready. cbn [fst]. by rewrite listeners_of_attach. }
  rewrite Hready in *. cbn [fst snd] in *.
  split; [reflexivity|]. split; [by rewrite attach_document|].
  split; [exact Hl|].
  unfold click. rewrite Hl. unfold dispatch. cbn [fold_left].
  rewrite decide_True by reflexivity. cbn [run callback fst snd].
  rewrite attach_document. cbn [page_document load_script fresh_page app].
  repeat split.
Qed.

Lemma click_runs_callApi_once_witness :
  is_Some (example_page_with_button (js "markets") [] (js "1") !! "sendBtn")
  /\ (click example_browser "sendBtn"
        (fire_all example_browser ["DOMContentLoaded"; "navigationend"]%string
           (load_script
              (fresh_page (example_page_with_button (js "markets") [] (js "1"))),
            [])).1).2
     = (callApi example_browser
          (example_page_with_button (js "markets") [] (js "1"))).2.
Proof.
  assert (Hs : is_Some (example_page_with_button (js "markets") [] (js "1")
                        !! "sendBtn")) by (vm_compute; eexists; reflexivity).
  split; [exact Hs|].
  apply (click_runs_callApi_once example_browser
           (example_page_with_button (js "markets") [] (js "1"))
           ["DOMContentLoaded"; "navigationend"]%string Hs).
  - discriminate.
  - constructor; [left; reflexivity|].
    constructor; [right; reflexivity|]. constructor.
Defined.

End RequestFacts.

(* ===================================================================== *)
(** * Reading back what was quoted *)
(* ===================================================================== *)

Module JSONReadFacts.
Import JS JSONText JSONRead TextFacts.

Lemma hex_value_hex_digit (d : N) : d < 16 -> hex_value (hex_digit d) = Some d.
Proof.
  intros Hd. unfold hex_value, hex_digit.
  destruct (N.ltb_spec d 10).
  - replace ((0x30 <=? 0x30 + d) && (0x30 + d <=? 0x39)) with true.
    + f_equal. lia.
    + symmetry. apply andb_true_intro. split; apply N.leb_le; lia.
  - replace ((0x30 <=? 0x61 + (d - 10)) && (0x61 + (d - 10) <=? 0x39)) with false.
    + replace ((0x61 <=? 0x61 + (d - 10)) && (0x61 + (d - 10) <=? 0x66)) with true.
      * f_equal. lia.
      * symmetry. apply andb_true_intro. split; apply N.leb_le; lia.
    + symmetry. apply andb_false_intro2. apply N.leb_gt. lia.
Qed.

Lemma hex_recombine (c : N) :
  c < 0x10000 ->
  4096 * (c / 4096 mod 16) + 256 * (c / 256 mod 16) + 16 * (c / 16 mod 16)
  + c mod 16 = c.
Proof.
  intros Hc.
  pose proof (N.div_mod c 16). pose proof (N.mod_lt c 16).
  pose proof (N.div_mod (c / 16) 16). pose proof (N.mod_lt (c / 16) 16).
  pose proof (N.div_mod (c / 16 / 16) 16). pose proof (N.mod_lt (c / 16 / 16) 16).
  assert (H256 : c / 256 = c / 16 / 16) by (rewrite N.Div0.div_div; reflexivity).
  assert (H4096 : c / 4096 = c / 16 / 16 / 16)
    by (rewrite !N.Div0.div_div; reflexivity).
  rewrite H256, H4096.
  assert (Hsmall : c / 16 / 16 / 16 < 16).
  { rewrite <- H4096. apply N.Div0.div_lt_upper_bound. lia. }
  rewrite (N.mod_small (c / 16 / 16 / 16) 16 Hsmall). lia.
Qed.

(** Reading back the output of [quote_unit] gives the code unit. *)
Lemma unquote_quote_unit (c : N) (t : jsstring) :
  unquote_units (quote_unit c ++ t) = cons c <$> unquote_units t.
Proof.
  unfold quote_unit.
  destruct (N.eqb_spec c 0x08) as [->|]; [reflexivity|].
  destruct (N.eqb_spec c 0x09) as [->|]; [reflexivity|].
  destruct (N.eqb_spec c 0x0A) as [->|]; [reflexivity|].
  destruct (N.eqb_spec c 0x0C) as [->|]; [reflexivity|].
  destruct (N.eqb_spec c 0x0D) as [->|]; [reflexivity|].
  destruct (N.eqb_spec c 0x22) as [->|]; [reflexivity|].
  destruct (N.eqb_spec c 0x5C) as [->|]; [reflexivity|].
  destruct ((c <? 0x20) || is_high_surrogate c || is_low_surrogate c) eqn:Hesc.
  - assert (Hc : c < 0x10000).
    { unfold is_high_surrogate, is_low_surrogate in Hesc.
      apply orb_prop in Hesc as [Hesc|Hesc];
        [apply orb_prop in Hesc as [Hesc|Hesc]|].
      - apply N.ltb_lt in Hesc. lia.
      - apply andb_prop in Hesc as [_ Hesc]. apply N.leb_le in Hesc. lia.
      - apply andb_prop in Hesc as [_ Hesc]. apply N.leb_le in Hesc. lia. }
    unfold unicode_escape. cbn [app unquote_units js map list_ascii_of_string].
    change (N_of_ascii "\") with 0x5C. change (N_of_ascii "u") with 0x75.
    cbn [app unquote_units].
    change (0x5C =? 0x5C) with true. change (0x75 =? 0x75) with true. cbv iota.
    rewrite !hex_value_hex_digit by apply mod16_lt.
    by rewrite (hex_recombine c Hc).
  - cbn [app unquote_units].
    destruct (N.eqb_spec c 0x5C); [contradiction | reflexivity].
Qed.

Lemma unquote_raw (c : N) (t : jsstring) :
  c <> 0x5C -> unquote_units (c :: t) = cons c <$> unquote_units t.
Proof.
  intros Hc. cbn [unquote_units].
  destruct (N.eqb_spec c 0x5C); [contradiction | reflexivity].
Qed.

Lemma unquote_quote_units (s t : jsstring) :
  unquote_units (quote_units s ++ t) = app s <$> unquote_units t.
Proof.
  revert t.
  apply (quote_units_ind
           (fun s out => forall t,
              unquote_units (out ++ t) = app s <$> unquote_units t)).
  - intros t. cbn [app]. by destruct (unquote_units t).
  - intros h s' IH t. rewrite <- app_assoc, unquote_quote_unit, IH.
    by destruct (unquote_units t).
  - intros h l s' Hh Hl IH t. cbn [app].
    pose proof (surrogate_range h (or_introl Hh)).
    pose proof (surrogate_range l (or_intror Hl)).
    rewrite !unquote_raw by lia. rewrite IH.
    by destruct (unquote_units t).
Qed.

(** X12. What [JSON.stringify] makes of a string can be read back: the
    JSON string it writes stands for exactly the string that was given, so
    two different strings (methods, request ids) never get the same JSON
    text. *)
Theorem unquote_quote (s : jsstring) :
  unquote (quote s) = Some s
  /\ (forall s', quote s = quote s' -> s = s').
Proof.
  assert (H : forall x, unquote (quote x) = Some x).
  { intros x. unfold quote, unquote. cbn [app].
    rewrite rev_app_distr. cbn [rev app]. rewrite rev_involutive.
    change (0x22 =? 0x22) with true. cbn [andb].
    rewrite <- (app_nil_r (quote_units x)), unquote_quote_units.
    cbn. by rewrite app_nil_r. }
  split; [apply H|].
  intros s' Heq. pose proof (H s) as Hs. rewrite Heq, H in Hs. congruence.
Qed.

Lemma unquote_quote_witness :
  quote [0x22; 0x0A; 0xD800; 0x41] = quote ([0x22; 0x0A] ++ [0xD800; 0x41])
  /\ [0x22; 0x0A; 0xD800; 0x41] = [0x22; 0x0A] ++ [0xD800; 0x41].
Proof.
  split; [reflexivity|].
  apply (proj2 (unquote_quote [0x22; 0x0A; 0xD800; 0x41])).
  reflexivity.
Defined.

End JSONReadFacts.

(* ===================================================================== *)
(** * Further properties of request signing *)
(* ===================================================================== *)

Module SigningMore.
Import Signing.

Section Sign.

Variable HMAC_SHA256 : bytes -> bytes -> bytes.

(** X13. In the signing example a changed body is a changed message, and
    the hexadecimal signature loses nothing of the MAC: two bodies get the
    same signature exactly when the MACs of the two signed messages
    coincide; the signature has two characters for each byte of the MAC,
    all of them digits or the letters a to f. *)
Theorem sign_loses_nothing (secret ts api_key recv_window p p' : bytes) :
  (to_sign ts api_key recv_window p = to_sign ts api_key recv_window p' ->
     p = p')
  /\ (sign HMAC_SHA256 secret ts api_key recv_window p
      = sign HMAC_SHA256 secret ts api_key recv_window p'
      <-> HMAC_SHA256 secret (to_sign ts api_key recv_window p)
          = HMAC_SHA256 secret (to_sign ts api_key recv_window p'))
  /\ length (sign HMAC_SHA256 secret ts api_key recv_window p)
     = (2 * length (HMAC_SHA256 secret (to_sign ts api_key recv_window p)))%nat
  /\ Forall (fun c => 0x30 <= c <= 0x39 \/ 0x61 <= c <= 0x66)
            (sign HMAC_SHA256 secret ts api_key recv_window p).
Proof.
  split; [unfold to_sign; apply app_inv_head|].
  split; [unfold sign; split; [apply SigningFacts.hex_inj | intros ->; reflexivity]|].
  unfold sign.
  generalize (HMAC_SHA256 secret (to_sign ts api_key recv_window p)) as mac.
  intros mac. split.
  - induction mac as [|b mac IH]; [reflexivity|].
    unfold hex in *. cbn [flat_map hex_byte app length]. rewrite IH. lia.
  - induction mac as [|b mac IH]; [constructor|].
    unfold hex in *. cbn [flat_map hex_byte app].
    pose proof (Byte.to_N_bounded b) as Hb.
    assert (Hhi : Byte.to_N b / 16 < 16)
      by (apply N.Div0.div_lt_upper_bound; lia).
    assert (Hlo : Byte.to_N b mod 16 < 16) by (apply N.mod_lt; lia).
    assert (Hd : forall d, d < 16 ->
                   0x30 <= JS.hex_digit d <= 0x39 \/ 0x61 <= JS.hex_digit d <= 0x66).
    { intros d Hd. unfold JS.hex_digit. destruct (N.ltb_spec d 10); lia. }
    constructor; [by apply Hd|]. constructor; [by apply Hd | exact IH].
Qed.

(** X14. The signed message is the plain concatenation of the four
    strings, so the signature does not tell where one field ends and the
    next begins: moving a byte from the end of the timestamp to the start
    of the API key, from the API key to the receive window, or from the
    receive window to the body leaves the signature as it is. *)
Theorem sign_field_boundaries (secret ts api_key recv_window payload : bytes)
    (b : Byte.byte) :
  sign HMAC_SHA256 secret (ts ++ [b]) api_key recv_window payload
  = sign HMAC_SHA256 secret ts (b :: api_key) recv_window payload
  /\ sign HMAC_SHA256 secret ts (api_key ++ [b]) recv_window payload
     = sign HMAC_SHA256 secret ts api_key (b :: recv_window) payload
  /\ sign HMAC_SHA256 secret ts api_key (recv_window ++ [b]) payload
     = sign HMAC_SHA256 secret ts api_key recv_window (b :: payload).
Proof.
  unfold sign, to_sign.
  repeat split; do 2 f_equal; rewrite <- ?app_assoc; reflexivity.
Qed.

End Sign.

Lemma sign_loses_nothing_witness :
  to_sign [Byte.x31] [Byte.x6b] [Byte.x35] [Byte.x7b; Byte.x7d]
  = to_sign [Byte.x31] [Byte.x6b] [Byte.x35] ([Byte.x7b] ++ [Byte.x7d])
  /\ [Byte.x7b; Byte.x7d] = [Byte.x7b] ++ [Byte.x7d].
Proof.
  split; [reflexivity|].
  apply (proj1 (sign_loses_nothing (fun _ msg => msg) [] [Byte.x31] [Byte.x6b]
                  [Byte.x35] [Byte.x7b; Byte.x7d] ([Byte.x7b] ++ [Byte.x7d]))).
  reflexivity.
Defined.

End SigningMore.
